(** * Revolut CSV Transformer: the transformation core of [src/App.tsx]

    A shallow embedding of the pure functions and of the state-changing
    handlers of the application, together with the properties that its
    description states about them.

    Modelling conventions.
    - A JavaScript string is a [string]: a sequence of 8-bit code units, read
      as ASCII.  Case conversion and white space are the ASCII ones; code
      units above 127 are carried along unchanged.
    - A JavaScript number is a binary64 value, [spec_float] with precision 53
      and maximal exponent 1024.
    - A record of the parser is a finite map of its own properties
      ([gmap string string]); the program reads it at the names of columns,
      none of which names a property of [Object.prototype].  The object
      that collects the categories, which is read at any description, is an
      [object]: its own properties and its prototype, which a reply can
      replace through the key [__proto__]; a property is read through the
      prototype chain and written as [[Set]] writes it.
    - Built-in operations whose result is left to the host ([JSON.parse],
      [Number::toString], [Date] parsing, the text of a built-in function,
      the properties of [Array.prototype]) are parameters, see [Builtins]. *)

From Stdlib Require Import ZArith String Ascii List Lia SpecFloat.
From Stdlib Require Import DecimalString DecimalPos DecimalN.
From stdpp Require Import base gmap strings list.

Set Warnings "-register-all".
Local Open Scope Z_scope.

(** ** Strings *)

Module JsString.

Definition dquote : ascii := "034"%char.
Definition LF : ascii := "010"%char.
Definition CR : ascii := "013"%char.
Definition comma : ascii := ","%char.

Definition in_range (lo hi c : ascii) : bool :=
  (N_of_ascii lo <=? N_of_ascii c)%N && (N_of_ascii c <=? N_of_ascii hi)%N.

Definition is_digit (c : ascii) : bool := in_range "0" "9" c.

(** [\s] of a regular expression and the characters removed by [trim],
    restricted to ASCII: TAB, LF, VT, FF, CR and SPACE. *)
Definition is_space (c : ascii) : bool :=
  in_range "009" "013" c || Ascii.eqb c " ".

Definition lower_char (c : ascii) : ascii :=
  if in_range "A" "Z" c then ascii_of_N (N_of_ascii c + 32) else c.

Definition upper_char (c : ascii) : ascii :=
  if in_range "a" "z" c then ascii_of_N (N_of_ascii c - 32) else c.

Fixpoint map_chars (f : ascii -> ascii) (s : string) : string :=
  match s with
  | EmptyString => EmptyString
  | String a s' => String (f a) (map_chars f s')
  end.

Definition toLowerCase : string -> string := map_chars lower_char.
Definition toUpperCase : string -> string := map_chars upper_char.

Fixpoint filter_chars (p : ascii -> bool) (s : string) : string :=
  match s with
  | EmptyString => EmptyString
  | String a s' => if p a then String a (filter_chars p s') else filter_chars p s'
  end.

Fixpoint exists_char (p : ascii -> bool) (s : string) : bool :=
  match s with
  | EmptyString => false
  | String a s' => p a || exists_char p s'
  end.

Fixpoint forall_chars (p : ascii -> bool) (s : string) : bool :=
  match s with
  | EmptyString => true
  | String a s' => p a && forall_chars p s'
  end.

(** [s.replace(/c/g, r)] for a one-character pattern. *)
Fixpoint replace_char (c : ascii) (r : string) (s : string) : string :=
  match s with
  | EmptyString => EmptyString
  | String a s' =>
      if Ascii.eqb a c then r +:+ replace_char c r s'
      else String a (replace_char c r s')
  end.

(** [s.includes(k)] *)
Fixpoint includes (s k : string) : bool :=
  String.prefix k s ||
  match s with
  | EmptyString => false
  | String _ s' => includes s' k
  end.

(** [s.slice(0, n)] *)
Fixpoint take (n : nat) (s : string) : string :=
  match n, s with
  | S n', String a s' => String a (take n' s')
  | _, _ => EmptyString
  end.

Fixpoint ltrim (s : string) : string :=
  match s with
  | EmptyString => EmptyString
  | String a s' => if is_space a then ltrim s' else s
  end.

Fixpoint rtrim (s : string) : string :=
  match s with
  | EmptyString => EmptyString
  | String a s' =>
      match rtrim s' with
      | EmptyString => if is_space a then EmptyString else String a EmptyString
      | t => String a t
      end
  end.

(** [s.trim()] *)
Definition trim (s : string) : string := rtrim (ltrim s).

(** Puts a character in front of the first piece of a split. *)
Definition cons_head (a : ascii) (ws : list string) : list string :=
  match ws with
  | [] => [String a EmptyString]
  | w :: ws' => String a w :: ws'
  end.

(** [s.split(c)] for a one-character separator. *)
Fixpoint split (c : ascii) (s : string) : list string :=
  match s with
  | EmptyString => [EmptyString]
  | String a s' =>
      if Ascii.eqb a c then EmptyString :: split c s'
      else cons_head a (split c s')
  end.

Definition starts_with (c : ascii) (s : string) : bool :=
  match s with
  | String b _ => Ascii.eqb b c
  | EmptyString => false
  end.

(** [s.split(/\r?\n/)]: a line ends at LF, and a CR just before that LF
    belongs to the separator. *)
Fixpoint split_lines (s : string) : list string :=
  match s with
  | EmptyString => [EmptyString]
  | String a s' =>
      if Ascii.eqb a LF then EmptyString :: split_lines s'
      else if Ascii.eqb a CR && starts_with LF s' then split_lines s'
      else cons_head a (split_lines s')
  end.

(** [xs.join(sep)] *)
Definition join (sep : string) (xs : list string) : string :=
  String.concat sep xs.

Definition nonempty (s : string) : bool :=
  match s with EmptyString => false | _ => true end.

(** Decimal numeral of a natural number, as in a template literal. *)
Definition of_N (n : N) : string := NilZero.string_of_uint (N.to_uint n).

End JsString.

Import JsString.

(** ** Values

    The values that [JSON.parse] can return, and the built-in objects and
    functions of the host that a property lookup can find on a prototype:
    [JBuiltin "Object.prototype"] is that object, [JBuiltin p] for another
    path [p] is the built-in function found there.  [JSON.parse] returns no
    built-in. *)

Inductive json : Type :=
| JNull
| JBool (b : bool)
| JNum (x : spec_float)
| JStr (s : string)
| JArr (items : list json)
| JObj (members : list (string * json))
| JBuiltin (path : string).

(** An exception: the [name] and [message] of the thrown [Error]. *)
Record exn : Type := Exn { exn_name : string; exn_message : string }.

Inductive result (A : Type) : Type :=
| Ok (a : A)
| Throw (e : exn).
Arguments Ok {A} a.
Arguments Throw {A} e.

(** What the host supplies. *)
Class Builtins : Type := {
  (** [JSON.parse(text)]: the parsed value, or the [SyntaxError] thrown. *)
  JSON_parse : string -> result json;
  (** [Number::toString(x)], the shortest decimal numeral that reads back as [x]. *)
  Number_toString : spec_float -> string;
  (** [new Date(s).toISOString()] when [new Date(s)] is a valid date. *)
  Date_toISOString : string -> option string;
  (** [String(f)] for the built-in function at the path [f], a text that the
      language leaves to the implementation. *)
  Function_toString : string -> string;
  (** [Array.prototype[k]] for an own property [k] of [Array.prototype],
      whose list depends on the edition of the language. *)
  Array_prototype : string -> option json
}.

(** ** Numbers *)

Module JsNumber.

Definition prec : Z := 53.
Definition emax : Z := 1024.

Definition signed (neg : bool) (z : Z) : Z := if neg then - z else z.

(** The binary64 value nearest to [n / d] (ties to even), for [0 <= n] and
    [0 < d].  The quotient is taken with enough extra bits, and a sticky bit
    records a non-zero remainder, so that a single rounding is exact. *)
Definition round_ratio (neg : bool) (n d : Z) : spec_float :=
  if n =? 0 then S754_zero neg
  else
    let k := Z.max 0 (Z.log2 d - Z.log2 n + 56) in
    let num := n * 2 ^ k in
    let q := num / d in
    let sticky := if num mod d =? 0 then 0 else 1 in
    binary_normalize prec emax (signed neg (2 * q + sticky)) (- k - 1) false.

(** The binary64 value nearest to [m * 10 ^ e10]. *)
Definition of_decimal (neg : bool) (m e10 : Z) : spec_float :=
  if 0 <=? e10 then round_ratio neg (m * 10 ^ e10) 1
  else round_ratio neg m (10 ^ (- e10)).

Definition digit_val (c : ascii) : Z := Z.of_N (N_of_ascii c) - 48.

Fixpoint digits_val (acc : Z) (s : string) : Z :=
  match s with
  | EmptyString => acc
  | String c s' => digits_val (10 * acc + digit_val c) s'
  end.

(** The leading decimal digits of [s], and what follows them. *)
Fixpoint span_digits (s : string) : string * string :=
  match s with
  | EmptyString => (EmptyString, EmptyString)
  | String c s' =>
      if is_digit c then
        let '(d, r) := span_digits s' in (String c d, r)
      else (EmptyString, s)
  end.

Definition parse_sign (s : string) : bool * string :=
  match s with
  | String c r =>
      if Ascii.eqb c "-" then (true, r)
      else if Ascii.eqb c "+" then (false, r)
      else (false, s)
  | EmptyString => (false, s)
  end.

(** The value of the [ExponentPart] at the start of [s], 0 when there is none. *)
Definition parse_exponent (s : string) : Z :=
  match s with
  | String c r =>
      if Ascii.eqb c "e" || Ascii.eqb c "E" then
        let '(neg, r') := parse_sign r in
        let '(d, _) := span_digits r' in
        if nonempty d then signed neg (digits_val 0 d) else 0
      else 0
  | EmptyString => 0
  end.

(** [parseFloat(input)]: leading white space is skipped, the longest prefix
    that is a [StrDecimalLiteral] is read, and [NaN] is returned when there
    is no such prefix. *)
Definition parseFloat (input : string) : spec_float :=
  let '(neg, r) := parse_sign (ltrim input) in
  if String.prefix "Infinity" r then S754_infinity neg
  else
    let '(ip, r1) := span_digits r in
    let '(fp, r2) :=
      match r1 with
      | String c r' => if Ascii.eqb c "." then span_digits r' else (EmptyString, r1)
      | EmptyString => (EmptyString, r1)
      end in
    if nonempty ip || nonempty fp then
      of_decimal neg (digits_val 0 (ip +:+ fp))
                 (parse_exponent r2 - Z.of_nat (String.length fp))
    else S754_nan.

(** [x < 0] *)
Definition lt_zero (x : spec_float) : bool := SFltb x (S754_zero false).

(** [!x] on a number: [NaN], [+0] and [-0] are the falsy numbers. *)
Definition falsy (x : spec_float) : bool :=
  match x with
  | S754_nan | S754_zero _ => true
  | _ => false
  end.

(** [x || 0] *)
Definition or_zero (x : spec_float) : spec_float :=
  if falsy x then S754_zero false else x.

(** [Math.abs(x)] *)
Definition abs (x : spec_float) : spec_float := SFabs x.

(** The exact value of a finite number, as a fraction [num / den] of its
    magnitude. *)
Definition magnitude (m : positive) (e : Z) : Z * Z :=
  if 0 <=? e then (Z.pos m * 2 ^ e, 1) else (Z.pos m, 2 ^ (- e)).

(** The integer [n] for which [n / 100] is nearest to [num / den], the
    larger one of two. *)
Definition hundredths (num den : Z) : Z := (200 * num + den) / (2 * den).

Definition digit_char (d : Z) : ascii := ascii_of_N (48 + Z.to_N d).

Definition two_digits (n : Z) : string :=
  String (digit_char (n / 10)) (String (digit_char (n mod 10)) EmptyString).

(** The numeral of [n / 100] with exactly two fraction digits. *)
Definition fixed2 (n : Z) : string :=
  of_N (Z.to_N (n / 100)) +:+ "." +:+ two_digits (n mod 100).

Section ToFixed.
Context {js : Builtins}.

(** [x.toFixed(2)] *)
Definition toFixed2 (x : spec_float) : string :=
  match x with
  | S754_nan => "NaN"
  | S754_infinity s => if s then "-Infinity" else "Infinity"
  | S754_zero _ => "0.00"
  | S754_finite s m e =>
      let '(num, den) := magnitude m e in
      (if s then "-" else EmptyString) +:+
      (if 10 ^ 21 * den <=? num then Number_toString (SFabs x)
       else fixed2 (hundredths num den))
  end.
End ToFixed.

End JsNumber.

Import JsNumber.

(** ** Small helpers of the application *)

Definition siteNameDefault : string := "Revolut CSV Transformer".

Definition categorySet : list string :=
  [ "Groceries"; "Restaurants"; "Transport"; "Shopping"; "Entertainment";
    "Bills"; "Housing"; "Health"; "Travel"; "Cash Withdrawal"; "Transfers";
    "Income"; "Fees"; "Other" ].

(** The test of [csvEscape]: does [s] contain a double quote, a comma or a
    line feed? *)
Definition needs_quoting (s : string) : bool :=
  exists_char (fun c => Ascii.eqb c dquote || Ascii.eqb c comma || Ascii.eqb c LF) s.

Definition doubled : string := String dquote (String dquote EmptyString).

(** The quoted form of [csvEscape]: the field between double quotes, with
    every double quote of the field written twice. *)
Definition quotedForm (s : string) : string :=
  String dquote (replace_char dquote doubled s) +:+ String dquote EmptyString.

(** The string branch of [csvEscape]. *)
Definition csvEscapeString (s : string) : string :=
  if needs_quoting s then quotedForm s else s.

(** The test of [toISODate]: four digits, a hyphen, two digits, a hyphen, two
    digits, and nothing else. *)
Definition is_iso_date (d : string) : bool :=
  match list_ascii_of_string d with
  | [y1; y2; y3; y4; h1; m1; m2; h2; d1; d2] =>
      forallb is_digit [y1; y2; y3; y4; m1; m2; d1; d2]
      && Ascii.eqb h1 "-" && Ascii.eqb h2 "-"
  | _ => false
  end.

Definition has (s k : string) : bool := includes s k.

Definition has_any (s : string) (ks : list string) : bool := existsb (has s) ks.

Definition heuristicCategory (name : string) : string :=
  let s := toLowerCase name in
  if has s "salary" || has s "stipend" || has s "payroll" || has s "bonifico in entrata" then "Income"
  else if has s "atm" || has s "cash withdrawal" || has s "prelievo" then "Cash Withdrawal"
  else if has s "transfer" || has s "bonifico" || has s "internal transfer" || has s "worldpay" then "Transfers"
  else if has s "amazon" || has s "zalando" || has s "decathlon" || has s "ikea" then "Shopping"
  else if has s "conad" || has s "coop" || has s "lidl" || has s "eurospin" || has s "supermerc" then "Groceries"
  else if has s "bar " || has s "caffe" || has s "ristor" || has s "trattoria" || has s "locanda"
          || has s "osteria" || has s "pizza" || has s "mcd" || has s "burger" || has s "kebab" then "Restaurants"
  else if has s "trenitalia" || has s "italo" || has s "uber" || has s "taxi" || has s "flixbus"
          || has s "ryanair" || has s "wizz" then "Transport"
  else if has s "spotify" || has s "netflix" || has s "steam" || has s "prime" || has s "disney" then "Entertainment"
  else if has s "enel" || has s "acea" || has s "tim" || has s "vodafone" || has s "windtre" || has s "bolletta" then "Bills"
  else if has s "affitto" || has s "rent" || has s "mutuo" || has s "mortgage" then "Housing"
  else if has s "farmacia" || has s "pharma" || has s "clinic" || has s "ospedale" || has s "dental" then "Health"
  else if has s "hotel" || has s "booking" || has s "airbnb" || has s "hostel" then "Travel"
  else if has s "fee" || has s "commission" then "Fees"
  else "Other".

(** The rules of [heuristicCategory] read as a priority list: the keywords of
    a rule and the category it assigns, in the order of the [if] statements. *)
Definition heuristicRules : list (list string * string) :=
  [ (["salary"; "stipend"; "payroll"; "bonifico in entrata"], "Income");
    (["atm"; "cash withdrawal"; "prelievo"], "Cash Withdrawal");
    (["transfer"; "bonifico"; "internal transfer"; "worldpay"], "Transfers");
    (["amazon"; "zalando"; "decathlon"; "ikea"], "Shopping");
    (["conad"; "coop"; "lidl"; "eurospin"; "supermerc"], "Groceries");
    (["bar "; "caffe"; "ristor"; "trattoria"; "locanda"; "osteria"; "pizza";
      "mcd"; "burger"; "kebab"], "Restaurants");
    (["trenitalia"; "italo"; "uber"; "taxi"; "flixbus"; "ryanair"; "wizz"], "Transport");
    (["spotify"; "netflix"; "steam"; "prime"; "disney"], "Entertainment");
    (["enel"; "acea"; "tim"; "vodafone"; "windtre"; "bolletta"], "Bills");
    (["affitto"; "rent"; "mutuo"; "mortgage"], "Housing");
    (["farmacia"; "pharma"; "clinic"; "ospedale"; "dental"], "Health");
    (["hotel"; "booking"; "airbnb"; "hostel"], "Travel");
    (["fee"; "commission"], "Fees") ].

(** First match wins; [Other] when no rule matches. *)
Fixpoint firstMatch (rules : list (list string * string)) (s : string) : string :=
  match rules with
  | [] => "Other"
  | (ks, cat) :: rest => if has_any s ks then cat else firstMatch rest s
  end.

(** ** Decoding: the fallback parser *)

(** A raw row: column name to cell. *)
Abbreviation RawRow := (gmap string string).

Record Parsed : Type := { data : list RawRow; parse_errors : list string }.

(** [xs[i]], or the empty string when it is missing. *)
Definition cell (cols : list string) (i : nat) : string := nth i cols EmptyString.

Definition indexed {A : Type} (xs : list A) : list (nat * A) :=
  combine (seq 0 (length xs)) xs.

(** The key of the accessor property of [Object.prototype] through which the
    prototype of an object is read and written. *)
Definition protoKey : string := "__proto__".

(** [rec[h] = v] for a string [v], on a record made by an object literal:
    the assignment to [__proto__] runs the setter of [Object.prototype],
    which ignores a string and creates no property. *)
Definition assign_cell (rec : RawRow) (h v : string) : RawRow :=
  if String.eqb h protoKey then rec else <[h := v]> rec.

(** The record that [headers.forEach] fills: [rec[h]] is the trimmed cell at
    the position of [h]. *)
Definition record_of (headers cols : list string) : RawRow :=
  fold_left (fun rec ih => assign_cell rec ih.2 (trim (cell cols ih.1))) (indexed headers) ∅.

Definition fallbackParse (csvText : string) : Parsed :=
  match List.filter nonempty (split_lines csvText) with
  | [] => {| data := []; parse_errors := ["Empty file"] |}
  | header :: lines =>
      let headers := List.map trim (split comma header) in
      {| data := List.map (fun line => record_of headers (split comma line)) lines;
         parse_errors := [] |}
  end.

(** ** The classifier *)

(** [!!v] *)
Definition truthy (v : json) : bool :=
  match v with
  | JNull => false
  | JBool b => b
  | JNum x => negb (falsy x)
  | JStr s => nonempty s
  | JArr _ | JObj _ | JBuiltin _ => true
  end.

Definition chars_of (s : string) : list json :=
  List.map (fun c => JStr (String c EmptyString)) (list_ascii_of_string s).

(** *** Objects

    The prototype of an object that the program makes with an object
    literal: [Object.prototype] at first; nothing, once [null] was assigned
    to its [__proto__]; or an object or array of a reply, once that was. *)
Inductive proto : Type :=
| ObjectPrototype
| NullPrototype
| ValuePrototype (v : json).

Record object : Type := Obj { own : gmap string json; prototype : proto }.

(** [{}] *)
#[export] Instance object_empty : Empty object := Obj ∅ ObjectPrototype.

(** [o !! k] is the own property [k] of [o]. *)
#[export] Instance object_lookup : Lookup string json object := fun k o => own o !! k.

(** [{ k: v }] *)
#[export] Instance object_singleton : SingletonM string json object :=
  fun k v => Obj {[ k := v ]} ObjectPrototype.

(** The value that the members of an object give to the key [k]: that of the
    last member with this key. *)
Definition last_binding (k : string) (members : list (string * json)) : option json :=
  fold_left (fun acc kv => if String.eqb kv.1 k then Some kv.2 else acc) members None.

(** The number [n]. *)
Definition number_of_nat (n : nat) : spec_float :=
  JsNumber.of_decimal false (Z.of_nat n) 0.

(** The own property [k] of a value of a reply: a member of an object; an
    element or the length of an array. *)
Definition value_own (v : json) (k : string) : option json :=
  match v with
  | JObj members => last_binding k members
  | JArr items =>
      if String.eqb k "length" then Some (JNum (number_of_nat (length items)))
      else snd <$> List.find (fun iv => String.eqb (of_N (N.of_nat iv.1)) k) (indexed items)
  | _ => None
  end.

(** The names of the function-valued properties of [Object.prototype]. *)
Definition objectPrototypeMembers : list string :=
  [ "constructor"; "__defineGetter__"; "__defineSetter__"; "hasOwnProperty";
    "__lookupGetter__"; "__lookupSetter__"; "isPrototypeOf"; "propertyIsEnumerable";
    "toString"; "valueOf"; "toLocaleString" ].

(** [Object.prototype[k]] read on behalf of an object whose prototype is
    [p]: the getter of [__proto__] returns that prototype, and the other
    properties are built-in functions. *)
Definition Object_prototype_get (p : json) (k : string) : option json :=
  if String.eqb k protoKey then Some p
  else if existsb (String.eqb k) objectPrototypeMembers
       then Some (JBuiltin ("Object.prototype." +:+ k))
       else None.


Section Objects.
Context {js : Builtins}.

(** The property [k] that the prototype [v], a value of a reply, has of its
    own or, for an array, from [Array.prototype]. *)
Definition value_property (v : json) (k : string) : option json :=
  match value_own v k with
  | Some x => Some x
  | None => match v with JArr _ => Array_prototype k | _ => None end
  end.

(** [o[k]]: the own property, or else the first one found along the
    prototype chain; [None] is [undefined]. *)
Definition get_property (o : object) (k : string) : option json :=
  match own o !! k with
  | Some v => Some v
  | None =>
      match prototype o with
      | NullPrototype => None
      | ObjectPrototype => Object_prototype_get (JBuiltin "Object.prototype") k
      | ValuePrototype v =>
          match value_property v k with
          | Some x => Some x
          | None => Object_prototype_get v k
          end
      end
  end.

(** Does [o[__proto__] = x] run the setter of [Object.prototype]?  It does
    when no object before [Object.prototype] on the chain has a property of
    that name. *)
Definition setter_reached (o : object) : bool :=
  match own o !! protoKey with
  | Some _ => false
  | None =>
      match prototype o with
      | NullPrototype => false
      | ObjectPrototype => true
      | ValuePrototype v =>
          match value_property v protoKey with Some _ => false | None => true end
      end
  end.

(** [o[k] = x].  The setter of [__proto__] makes an object or [null] the
    prototype and ignores any other value; every other assignment writes an
    own property, since the properties found on the chain are writable data
    properties. *)
Definition set_property (o : object) (k : string) (x : json) : object :=
  if String.eqb k protoKey && setter_reached o then
    match x with
    | JNull => Obj (own o) NullPrototype
    | JObj _ | JArr _ | JBuiltin _ => Obj (own o) (ValuePrototype x)
    | JBool _ | JNum _ | JStr _ => o
    end
  else Obj (<[k := x]> (own o)) (prototype o).

(** One member of an object text read by [JSON.parse]: a name that the
    object has already takes the new value at its place, a new name is added
    after the others. *)
Definition define_entry (props : list (string * json)) (kv : string * json)
  : list (string * json) :=
  if existsb (fun p : string * json => String.eqb p.1 kv.1) props
  then List.map (fun p : string * json => if String.eqb p.1 kv.1 then (p.1, kv.2) else p) props
  else props ++ [kv].

(** The own properties of the object that [JSON.parse] makes of the members
    of an object text. *)
Definition own_entries (members : list (string * json)) : list (string * json) :=
  fold_left define_entry members [].

Definition assign_entries (target : object) (entries : list (string * json)) : object :=
  fold_left (fun acc kv => set_property acc kv.1 kv.2) entries target.

(** The own enumerable properties of an array or of a string: its elements,
    under their indices. *)
Definition index_entries (items : list json) : list (string * json) :=
  List.map (fun iv : nat * json => (of_N (N.of_nat iv.1), iv.2)) (indexed items).

(** [Object.assign(target, source)]: every own enumerable property of the
    source is assigned to the target.  The properties have different names,
    so that the order in which they are taken does not matter (see
    [assign_entries_permutation]). *)
Definition Object_assign (target : object) (source : json) : object :=
  match source with
  | JObj members => assign_entries target (own_entries members)
  | JArr items => assign_entries target (index_entries items)
  | JStr s => assign_entries target (index_entries (chars_of s))
  | JNull | JBool _ | JNum _ | JBuiltin _ => target
  end.

End Objects.

(** The longest prefix of [s] that ends with [c]. *)
Fixpoint upto_last (c : ascii) (s : string) : option string :=
  match s with
  | EmptyString => None
  | String a s' =>
      match upto_last c s' with
      | Some t => Some (String a t)
      | None => if Ascii.eqb a c then Some (String a EmptyString) else None
      end
  end.

(** The match of an opening brace, anything, and a closing brace: from the
    first opening brace to the last closing brace after it. *)
Fixpoint match_braces (s : string) : option string :=
  match s with
  | EmptyString => None
  | String a s' =>
      if Ascii.eqb a "{" then String a <$> upto_last "}" s' else match_braces s'
  end.

Definition CHUNK : nat := 40.

(** The groups pushed by the loop [for (i = 0; i < names.length; i += CHUNK)]. *)
Definition chunks (names : list string) : list (list string) :=
  List.map (fun j => firstn CHUNK (skipn (j * CHUNK) names))
           (seq 0 ((length names + CHUNK - 1) / CHUNK)).

Record Request : Type := {
  req_apiKey : string;
  req_model : string;
  req_content : string
}.

(** What one [fetch] and the reading of its response come to. *)
Inductive Response : Type :=
| Rejected (e : exn)
    (** [fetch], [res.text()], [res.json()] or the access to the content threw *)
| NotOk (status : N) (text : string)
    (** [res.ok] is false *)
| Content (c : option string)
    (** [data.choices?.[0]?.message?.content], when it is there *).

Definition newline : string := String LF EmptyString.

Definition prompt (group : list string) : string :=
  "Classify each transaction/merchant name into one of these categories: "
    +:+ join ", " categorySet +:+ "." +:+ newline
    +:+ "Return a single valid JSON object with keys = original names EXACTLY and values = one category string."
    +:+ newline +:+ "Names:" +:+ newline
    +:+ join newline
          (List.map (fun ix => of_N (N.of_nat (ix.1 + 1)) +:+ ". " +:+ ix.2) (indexed group)).

Definition apiKeyMissing : exn :=
  Exn "Error" "Please add your LLM API key in Settings.".

Section Classifier.
Context {js : Builtins}.
(** The remote service: the response to the [i]-th request of a run. *)
Variable net : nat -> Request -> Response.

(** [for (const n of group) mapping[n] = heuristicCategory(n)] *)
Definition heuristicAll (group : list string) (mapping : object) : object :=
  fold_left (fun acc n => set_property acc n (JStr (heuristicCategory n))) group mapping.

(** The [try] / [catch] that merges one reply into [mapping]. *)
Definition mergeReply (group : list string) (mapping : object) (text : string)
  : result object :=
  match JSON_parse text with
  | Ok obj => Ok (Object_assign mapping obj)
  | Throw _ =>
      match match_braces text with
      | Some m =>
          match JSON_parse m with
          | Ok obj => Ok (Object_assign mapping obj)
          | Throw e => Throw e
          end
      | None => Ok (heuristicAll group mapping)
      end
  end.


Definition request_of (apiKey model : string) (group : list string) : Request :=
  {| req_apiKey := apiKey; req_model := model; req_content := prompt group |}.

(** The text taken from a response body: the trimmed content, or an empty
    object when there is none. *)
Definition reply_text (c : option string) : string :=
  match c with
  | Some t => if nonempty (trim t) then trim t else "{}"
  | None => "{}"
  end.

(** One turn of the loop over the groups. *)
Definition classifyGroup (apiKey model : string) (i : nat) (group : list string)
           (mapping : object) : result object :=
  match net i (request_of apiKey model group) with
  | Rejected e => Throw e
  | NotOk status text =>
      Throw (Exn "Error" ("OpenAI API error: " +:+ of_N status +:+ " " +:+ text))
  | Content c => mergeReply group mapping (reply_text c)
  end.

(** The loop over the groups, from the [i]-th request on; the groups that
    were sent are recorded next to the outcome. *)
Fixpoint classifyLoop (apiKey model : string) (i : nat) (groups : list (list string))
         (mapping : object) : list (list string) * result object :=
  match groups with
  | [] => ([], Ok mapping)
  | group :: rest =>
      match classifyGroup apiKey model i group mapping with
      | Ok mapping' =>
          let '(sent, r) := classifyLoop apiKey model (S i) rest mapping' in
          (group :: sent, r)
      | Throw e => ([group], Throw e)
      end
  end.

Definition classifyWithOpenAI (names : list string) (apiKey model : string)
  : list (list string) * result object :=
  if nonempty apiKey then classifyLoop apiKey model 0 (chunks names) ∅
  else ([], Throw apiKeyMissing).
End Classifier.

(** ** The application state and what is computed from it *)

(** The [useState] cells of [App] that the transformation reads or writes. *)
Record State : Type := {
  apiKey : string;
  source : string;
  websiteName : string;
  dateField : string;
  onlyCompleted : bool;
  model : string;
  typeFilter : string;
  rawRows : list RawRow;
  errors : list string;
  status : string;
  categoryMap : object
}.

Record NormalizedRow : Type := {
  Date : string;
  Type_ : string;
  Amount : string;
  Currency : string;
  Category : json;
  Name : string;
  Account : string;
  Notes : string;
  Source : string
}.

(** [a || b] on strings *)
Definition or_else (a b : string) : string := if nonempty a then a else b.

(** [r[k] || s], where a missing column reads as [undefined]. *)
Definition column_or (r : RawRow) (k : string) (s : string) : string :=
  match r !! k with
  | Some v => or_else v s
  | None => s
  end.

(** [row[c]], with [undefined] read as [JNull]. *)
Definition row_get (row : NormalizedRow) (c : string) : json :=
  if String.eqb c "Date" then JStr (Date row)
  else if String.eqb c "Type" then JStr (Type_ row)
  else if String.eqb c "Amount" then JStr (Amount row)
  else if String.eqb c "Currency" then JStr (Currency row)
  else if String.eqb c "Category" then Category row
  else if String.eqb c "Name" then JStr (Name row)
  else if String.eqb c "Account" then JStr (Account row)
  else if String.eqb c "Notes" then JStr (Notes row)
  else if String.eqb c "Source" then JStr (Source row)
  else JNull.

Definition cols : list string :=
  ["Date"; "Type"; "Amount"; "Currency"; "Category"; "Name"; "Account"; "Notes"; "Source"].

(** Adds [name] to a [Set] kept in insertion order. *)
Definition set_add (seen : list string) (name : string) : list string :=
  if existsb (String.eqb name) seen then seen else seen ++ [name].

Definition filteredRows (st : State) : list RawRow :=
  let rows := List.filter (fun r : RawRow => negb (Nat.eqb (size r) 0)) (rawRows st) in
  if onlyCompleted st then
    List.filter
      (fun r : RawRow => String.eqb (toUpperCase (column_or r "State" EmptyString)) "COMPLETED")
      rows
  else rows.

Definition uniqueNames (st : State) : list string :=
  fold_left
    (fun seen (r : RawRow) =>
       let name := trim (column_or r "Description" EmptyString) in
       if nonempty name then set_add seen name else seen)
    (filteredRows st) [].

(** The amount parser of [transformedAll]: white space is removed, every dot
    is dropped, every comma becomes a dot, and [parseFloat] reads the rest. *)
Definition normalizeAmount (raw : string) : string :=
  let rawAmt := filter_chars (fun c => negb (is_space c)) raw in
  replace_char comma "." (replace_char "." EmptyString rawAmt).

Definition parseAmount (raw : string) : spec_float := parseFloat (normalizeAmount raw).

(** [r.Amount ?? "0"], parsed. *)
Definition amtNum (r : RawRow) : spec_float := parseAmount (default "0" (r !! "Amount")).

Definition expectedHeaders : list string :=
  [ "Type"; "Product"; "Started Date"; "Completed Date"; "Description"; "Amount";
    "Fee"; "Currency"; "State"; "Balance" ].

Section App.
Context {js : Builtins}.

(** [String(v)] *)
Fixpoint to_String (v : json) : string :=
  match v with
  | JNull => "null"
  | JBool b => if b then "true" else "false"
  | JNum x => Number_toString x
  | JStr s => s
  | JArr items =>
      join ","
        (List.map (fun x => match x with JNull => EmptyString | _ => to_String x end) items)
  | JObj _ => "[object Object]"
  | JBuiltin path =>
      if String.eqb path "Object.prototype" then "[object Object]" else Function_toString path
  end.

Definition csvEscape (value : json) : string :=
  match value with
  | JNull => EmptyString
  | _ => csvEscapeString (to_String value)
  end.

Definition toISODate (dateStr : string) : string :=
  if nonempty dateStr then
    let d := take 10 (trim dateStr) in
    if is_iso_date d then d
    else
      match Date_toISOString dateStr with
      | Some iso => take 10 iso
      | None => EmptyString
      end
  else EmptyString.

(** [categoryMap[name] || heuristicCategory(name)] *)
Definition categoryOf (m : object) (name : string) : json :=
  match get_property m name with
  | Some v => if truthy v then v else JStr (heuristicCategory name)
  | None => JStr (heuristicCategory name)
  end.

(** The body of the [map] in [transformedAll]. *)
Definition transformRow (st : State) (r : RawRow) : NormalizedRow :=
  let x := amtNum r in
  let name := column_or r "Description" EmptyString in
  {| Date :=
       toISODate
         (column_or r (dateField st)
            (column_or r "Completed Date" (column_or r "Started Date" EmptyString)));
     Type_ := if lt_zero x then "Expense" else "Income";
     Amount := toFixed2 (abs (or_zero x));
     Currency := column_or r "Currency" EmptyString;
     Category := categoryOf (categoryMap st) name;
     Name := name;
     Account := or_else (source st) "Revolut";
     Notes := EmptyString;
     Source := or_else (websiteName st) siteNameDefault |}.

Definition transformedAll (st : State) : list NormalizedRow :=
  List.map (transformRow st) (filteredRows st).

Definition transformedFiltered (st : State) : list NormalizedRow :=
  if String.eqb (typeFilter st) "Both" then transformedAll st
  else List.filter (fun r => String.eqb (Type_ r) (typeFilter st)) (transformedAll st).

(** One line of the export: the escaped cells of a row, joined by commas. *)
Definition csvLine (row : NormalizedRow) : string :=
  join "," (List.map (fun c => csvEscape (row_get row c)) cols).

(** The text that [handleDownload] puts into the downloaded file. *)
Definition handleDownload (st : State) : string :=
  let header := join "," cols in
  let body := join newline (List.map csvLine (transformedFiltered st)) in
  header +:+ newline +:+ body +:+ newline.

Definition setStatus (s : string) (st : State) : State :=
  {| apiKey := apiKey st; source := source st; websiteName := websiteName st;
     dateField := dateField st; onlyCompleted := onlyCompleted st; model := model st;
     typeFilter := typeFilter st; rawRows := rawRows st; errors := errors st;
     status := s; categoryMap := categoryMap st |}.

Definition setErrors (f : list string -> list string) (st : State) : State :=
  {| apiKey := apiKey st; source := source st; websiteName := websiteName st;
     dateField := dateField st; onlyCompleted := onlyCompleted st; model := model st;
     typeFilter := typeFilter st; rawRows := rawRows st; errors := f (errors st);
     status := status st; categoryMap := categoryMap st |}.

Definition setCategoryMap (m : object) (st : State) : State :=
  {| apiKey := apiKey st; source := source st; websiteName := websiteName st;
     dateField := dateField st; onlyCompleted := onlyCompleted st; model := model st;
     typeFilter := typeFilter st; rawRows := rawRows st; errors := errors st;
     status := status st; categoryMap := m |}.

(** [e.message || String(e)] for a thrown [Error]. *)
Definition surfaced (e : exn) : string := or_else (exn_message e) (exn_name e).

(** [handleClassify]: the state it leaves, and the groups it sent. *)
Definition handleClassify (net : nat -> Request -> Response) (st : State)
  : list (list string) * State :=
  let failed e st' := setErrors (fun x => x ++ [surfaced e]) (setStatus EmptyString st') in
  if nonempty (apiKey st) then
    let st1 := setStatus "Classifying with LLM..." st in
    match classifyWithOpenAI net (uniqueNames st) (apiKey st) (model st) with
    | (sent, Ok map) => (sent, setStatus "Classification complete." (setCategoryMap map st1))
    | (sent, Throw e) => (sent, failed e st1)
    end
  else ([], failed apiKeyMissing st).

(** [onFileSelected] when the optional PapaParse package is not loaded: the
    text is read by [fallbackParse]. *)
Definition onFileSelected (text : string) (st : State) : State :=
  let parsed := fallbackParse text in
  let issues :=
    match parse_errors parsed with
    | [] => []
    | errs => ["Parsing issues: " +:+ join " | " (firstn 3 errs)]
    end in
  let headers := List.map trim (split comma (hd EmptyString (split_lines text))) in
  let missing :=
    List.filter (fun h => negb (existsb (String.eqb h) headers)) expectedHeaders in
  let warnings :=
    match missing with
    | [] => []
    | _ => ["Missing expected columns: " +:+ join ", " missing +:+ ". Got: "
              +:+ join ", " headers]
    end in
  {| apiKey := apiKey st; source := source st; websiteName := websiteName st;
     dateField := dateField st; onlyCompleted := onlyCompleted st; model := model st;
     typeFilter := typeFilter st; rawRows := data parsed;
     errors := issues ++ warnings;
     status := "Loaded " +:+ of_N (N.of_nat (length (data parsed))) +:+ " rows.";
     categoryMap := ∅ |}.

End App.

(** * The vocabulary of the statements *)

(** Does the text start, after white space and an optional sign, with
    Infinity, with a digit, or with a dot and a digit? *)
Definition numeral_start (s : string) : bool :=
  let '(_, r) := parse_sign (ltrim s) in
  String.prefix "Infinity" r ||
  match r with
  | String c r' =>
      is_digit c ||
      (Ascii.eqb c "." && match r' with String d _ => is_digit d | EmptyString => false end)
  | EmptyString => false
  end.

(** The cells that [fallbackParse] reads back from a file with the single
    column [h] and the single data line [line]. *)
Definition decodeLine (line : string) : list (option string) :=
  List.map (fun r : RawRow => r !! "h") (data (fallbackParse ("h" +:+ newline +:+ line))).

(** A text between double quotes. *)
Definition quoted (s : string) : string := String dquote (s +:+ String dquote EmptyString).

Definition headerLine : string :=
  "Date,Type,Amount,Currency,Category,Name,Account,Notes,Source".

Definition row_list (r : NormalizedRow) : list json := List.map (row_get r) cols.

(** * Hosts and inputs of the examples *)

(** A [JSON.parse] that knows the texts of a table and rejects every other. *)
Definition scripted_parse (table : list (string * json)) (text : string) : result json :=
  match List.find (fun kv => String.eqb kv.1 text) table with
  | Some kv => Ok kv.2
  | None => Throw (Exn "SyntaxError" "Unexpected token")
  end.

(** The properties of [Array.prototype] in the host of the examples: the
    functions of the fifth edition, and the length of that array. *)
Definition arrayPrototype (k : string) : option json :=
  if String.eqb k "length" then Some (JNum (S754_zero false))
  else if existsb (String.eqb k)
            [ "constructor"; "toString"; "toLocaleString"; "concat"; "join"; "pop"; "push";
              "reverse"; "shift"; "slice"; "sort"; "splice"; "unshift"; "indexOf";
              "lastIndexOf"; "every"; "some"; "forEach"; "map"; "filter"; "reduce";
              "reduceRight" ]
       then Some (JBuiltin ("Array.prototype." +:+ k))
       else None.

(** A host for the examples, in which no number is printed by
    [Number::toString] and no date is parsed by [Date]. *)
Definition host (table : list (string * json)) : Builtins :=
  {| JSON_parse := scripted_parse table;
     Number_toString := fun _ => "1e+21";
     Date_toISOString := fun _ => None;
     Function_toString := fun path => "function " +:+ path +:+ "() { [native code] }";
     Array_prototype := arrayPrototype |}.

(** The settings a fresh session starts with. *)
Definition initial : State :=
  {| apiKey := EmptyString; source := "Revolut"; websiteName := siteNameDefault;
     dateField := "Completed Date"; onlyCompleted := true; model := "gpt-4o-mini";
     typeFilter := "Both"; rawRows := []; errors := []; status := EmptyString;
     categoryMap := ∅ |}.

Definition withCompletedOnly (b : bool) (st : State) : State :=
  {| apiKey := apiKey st; source := source st; websiteName := websiteName st;
     dateField := dateField st; onlyCompleted := b; model := model st;
     typeFilter := typeFilter st; rawRows := rawRows st; errors := errors st;
     status := status st; categoryMap := categoryMap st |}.

Definition withRows (rows : list RawRow) (st : State) : State :=
  {| apiKey := apiKey st; source := source st; websiteName := websiteName st;
     dateField := dateField st; onlyCompleted := onlyCompleted st; model := model st;
     typeFilter := typeFilter st; rawRows := rows; errors := errors st;
     status := status st; categoryMap := categoryMap st |}.

Definition withApiKey (k : string) (st : State) : State :=
  {| apiKey := k; source := source st; websiteName := websiteName st;
     dateField := dateField st; onlyCompleted := onlyCompleted st; model := model st;
     typeFilter := typeFilter st; rawRows := rawRows st; errors := errors st;
     status := status st; categoryMap := categoryMap st |}.

Definition standardHeader : string :=
  "Type,Product,Started Date,Completed Date,Description,Amount,Fee,Currency,State,Balance".

Definition readmeLine : string :=
  "CARD_PAYMENT,Card,2025-08-01 08:15,2025-08-01 08:15,CONAD SUPERMARKET,-47,30,,EUR,COMPLETED,1234,56".

Definition plainFile : string :=
  standardHeader +:+ newline
    +:+ "CARD_PAYMENT,Card,2025-08-01 08:15,2025-08-01 08:15,CONAD SUPERMARKET,-47,0,EUR,COMPLETED,1234".

(** A reply that names one shop and one category, as a JSON text. *)
Definition shopReply : string := "{" +:+ quoted "shop 0" +:+ ":" +:+ quoted "Groceries" +:+ "}".

Definition shopHost : Builtins := host [ (shopReply, JObj [ ("shop 0", JStr "Groceries") ]) ].

(** Forty-one completed rows with distinct descriptions: two batches. *)
Definition shopRows : list RawRow :=
  List.map
    (fun i => {[ "Description" := "shop " +:+ of_N (N.of_nat i); "State" := "COMPLETED" ]})
    (seq 0 41).

Definition shopSession : State := withApiKey "sk-test" (withRows shopRows initial).

(** A service that answers the first request and refuses the second. *)
Definition flakyNet (i : nat) (req : Request) : Response :=
  match i with
  | O => Content (Some shopReply)
  | _ => NotOk 500 "server error"
  end.



(** * The vocabulary of the further properties *)

(** Is [c] an ASCII character, one below 128? *)
Definition is_ascii (c : ascii) : bool := N.ltb (N_of_ascii c) 128.

(** The session after the type filter of the settings was set to [f]. *)
Definition withTypeFilter (f : string) (st : State) : State :=
  {| apiKey := apiKey st; source := source st; websiteName := websiteName st;
     dateField := dateField st; onlyCompleted := onlyCompleted st; model := model st;
     typeFilter := f; rawRows := rawRows st; errors := errors st;
     status := status st; categoryMap := categoryMap st |}.

(** The body of the loop of [uniqueNames]. *)
Definition addName (seen : list string) (r : RawRow) : list string :=
  let name := trim (column_or r "Description" EmptyString) in
  if nonempty name then set_add seen name else seen.

(** The position of the last occurrence of [h] in [headers], counted from [i]. *)
Fixpoint column_index_from (i : nat) (headers : list string) (h : string) : option nat :=
  match headers with
  | [] => None
  | x :: xs =>
      match column_index_from (S i) xs h with
      | Some j => Some j
      | None => if String.eqb x h then Some i else None
      end
  end.

(** The position whose cell [fallbackParse] keeps for the header [h]: the
    last one, since a later assignment to [rec[h]] replaces an earlier one. *)
Definition column_index (headers : list string) (h : string) : option nat :=
  column_index_from 0 headers h.

(** The header names that [fallbackParse] reads: those of the first line that
    is not empty. *)
Definition headerNames (text : string) : list string :=
  match List.filter nonempty (split_lines text) with
  | [] => []
  | header :: _ => List.map trim (split comma header)
  end.

(** The text with every line feed turned into carriage return and line feed. *)
Definition crlf (text : string) : string :=
  replace_char LF (String CR (String LF EmptyString)) text.





(** A host whose [JSON.parse] reads the empty object and nothing else. *)
Definition bareHost : Builtins := host [ ("{}", JObj []) ].

(** A service that answers every request with the same content. *)
Definition steadyNet (c : option string) (i : nat) (req : Request) : Response := Content c.

(** The names that [onFileSelected] checks against the expected headers:
    those of the first line of the text, empty or not. *)
Definition checkedNames (text : string) : list string :=
  List.map trim (split comma (hd EmptyString (split_lines text))).

(** The warning that [onFileSelected] gives for a file without any of the
    expected columns and with an empty first line. *)
Definition blankHeaderWarning : string :=
  "Missing expected columns: Type, Product, Started Date, Completed Date, Description, Amount, Fee, Currency, State, Balance. Got: ".



(** * Properties *)

(** ** Characters and pieces of a text *)

Lemma exists_char_In (p : ascii -> bool) (s : string) :
  exists_char p s = true <-> exists c, In c (list_ascii_of_string s) /\ p c = true.
Proof.
  induction s as [|a s IH]; cbn [exists_char list_ascii_of_string In].
  - split; [discriminate|]. intros (c & [] & _).
  - rewrite orb_true_iff, IH. split.
    + intros [Ha|(c & Hc & Hp)]; [exists a; auto|exists c; auto].
    + intros (c & [<-|Hc] & Hp); [left; exact Hp|right; exists c; auto].
Qed.

Lemma exists_char_weaken (p q : ascii -> bool) (s : string) :
  (forall a, q a = true -> p a = true) ->
  exists_char p s = false -> exists_char q s = false.
Proof.
  intros Hqp. induction s as [|a s IH]; cbn [exists_char]; [reflexivity|].
  rewrite !orb_false_iff. intros [Ha Hs]. split; [|exact (IH Hs)].
  destruct (q a) eqn:Hq; [|reflexivity]. rewrite (Hqp a Hq) in Ha. discriminate.
Qed.

Lemma exists_char_app (p : ascii -> bool) (s t : string) :
  exists_char p (s +:+ t) = exists_char p s || exists_char p t.
Proof.
  induction s as [|a s IH]; [reflexivity|].
  change (String a s +:+ t) with (String a (s +:+ t)).
  cbn [exists_char]. rewrite IH, orb_assoc. reflexivity.
Qed.

Lemma ltrim_sub (p : ascii -> bool) (s : string) :
  exists_char p (ltrim s) = true -> exists_char p s = true.
Proof.
  induction s as [|a s IH]; cbn [ltrim exists_char]; [discriminate|].
  destruct (is_space a); [|exact (fun Hs => Hs)].
  intros Hs. rewrite (IH Hs). apply orb_true_r.
Qed.

Lemma rtrim_sub (p : ascii -> bool) (s : string) :
  exists_char p (rtrim s) = true -> exists_char p s = true.
Proof.
  induction s as [|a s IH]; cbn [rtrim exists_char]; [discriminate|].
  destruct (rtrim s) as [|b t] eqn:Ht.
  - destruct (is_space a); cbn [exists_char]; [discriminate|].
    rewrite orb_false_r. intros ->. reflexivity.
  - cbn [exists_char]. intros [Ha|Hs]%orb_true_iff.
    + rewrite Ha. reflexivity.
    + rewrite (IH Hs). apply orb_true_r.
Qed.

Lemma trim_sub (p : ascii -> bool) (s : string) :
  exists_char p (trim s) = true -> exists_char p s = true.
Proof. intros Ht. apply ltrim_sub, rtrim_sub. exact Ht. Qed.

Lemma rtrim_ends (c : ascii) (y : string) :
  is_space c = false -> rtrim (y +:+ String c EmptyString) = y +:+ String c EmptyString.
Proof.
  intros Hc. induction y as [|a y IH].
  - change (EmptyString +:+ String c EmptyString) with (String c EmptyString).
    cbn [rtrim]. rewrite Hc. reflexivity.
  - change (String a y +:+ String c EmptyString) with (String a (y +:+ String c EmptyString)).
    cbn [rtrim]. rewrite IH.
    destruct y; reflexivity.
Qed.

Lemma length_app_string (s t : string) :
  String.length (s +:+ t) = (String.length s + String.length t)%nat.
Proof.
  induction s as [|a s IH]; [reflexivity|].
  change (String a s +:+ t) with (String a (s +:+ t)). cbn [String.length].
  rewrite IH. reflexivity.
Qed.

Lemma split_none (c : ascii) (s : string) :
  exists_char (fun a => Ascii.eqb a c) s = false -> split c s = [s].
Proof.
  induction s as [|a s IH]; cbn [exists_char split]; [reflexivity|].
  rewrite orb_false_iff. intros [Ha Hs]. rewrite Ha, (IH Hs). reflexivity.
Qed.

Lemma split_lines_none (s : string) :
  exists_char (fun a => Ascii.eqb a LF) s = false -> split_lines s = [s].
Proof.
  induction s as [|a s IH]; cbn [exists_char split_lines]; [reflexivity|].
  rewrite orb_false_iff. intros [Ha Hs]. rewrite Ha, (IH Hs).
  assert (Hstart : starts_with LF s = false).
  { destruct s as [|b s']; [reflexivity|]. cbn [exists_char] in Hs.
    apply orb_false_iff in Hs. exact (proj1 Hs). }
  rewrite Hstart, andb_false_r. reflexivity.
Qed.

(** No piece of a split holds the separator, and every character of a piece
    is a character of the text. *)
Lemma split_pieces (c : ascii) (p : ascii -> bool) (s : string) :
  Forall (fun w => exists_char (fun a => Ascii.eqb a c) w = false
                   /\ (exists_char p w = true -> exists_char p s = true))
         (split c s).
Proof.
  induction s as [|a s IH]; cbn [split].
  - constructor; [|constructor]. split; [reflexivity|exact (fun Hw => Hw)].
  - destruct (Ascii.eqb a c) eqn:Ha.
    + constructor.
      * split; [reflexivity|discriminate].
      * eapply Forall_impl; [exact IH|]. cbn beta. intros w [Hsep Hsub].
        split; [exact Hsep|]. intros Hw. cbn [exists_char]. rewrite (Hsub Hw).
        apply orb_true_r.
    + destruct (split c s) as [|w ws]; cbn [cons_head].
      * constructor; [|constructor]. cbn [exists_char]. rewrite Ha. split; [reflexivity|].
        rewrite !orb_false_r. intros ->. reflexivity.
      * apply Forall_cons_1 in IH. destruct IH as [[Hsep Hsub] IH].
        constructor.
        -- cbn [exists_char]. rewrite Ha, Hsep. split; [reflexivity|].
           intros [Hp|Hw]%orb_true_iff; [rewrite Hp; reflexivity|].
           rewrite (Hsub Hw). apply orb_true_r.
        -- eapply Forall_impl; [exact IH|]. cbn beta. intros w' [Hsep' Hsub'].
           split; [exact Hsep'|]. intros Hw. cbn [exists_char]. rewrite (Hsub' Hw).
           apply orb_true_r.
Qed.

(** No line of a text holds a line feed. *)
Lemma split_lines_pieces (s : string) :
  Forall (fun l => exists_char (fun a => Ascii.eqb a LF) l = false) (split_lines s).
Proof.
  induction s as [|a s IH]; cbn [split_lines].
  - constructor; [reflexivity|constructor].
  - destruct (Ascii.eqb a LF) eqn:Ha; [constructor; [reflexivity|exact IH]|].
    destruct (Ascii.eqb a CR && starts_with LF s); [exact IH|].
    destruct (split_lines s) as [|l ls]; cbn [cons_head].
    + constructor; [|constructor]. cbn [exists_char]. rewrite Ha. reflexivity.
    + apply Forall_cons_1 in IH. destruct IH as [Hl IH].
      constructor; [|exact IH]. cbn [exists_char]. rewrite Ha, Hl. reflexivity.
Qed.

Lemma cell_0_of_split (c : ascii) (s : string) :
  exists w ws, split c s = w :: ws /\ cell (split c s) 0 = w.
Proof.
  destruct (split c s) as [|w ws] eqn:Hs.
  - destruct s as [|a s']; cbn [split] in Hs; [discriminate|].
    destruct (Ascii.eqb a c); [discriminate|].
    destruct (split c s'); discriminate.
  - exists w, ws. split; reflexivity.
Qed.

(** ** Numerals *)









Lemma digit_first_facts (a : ascii) (rest : string) :
  is_digit a = true ->
  ltrim (String a rest) = String a rest
  /\ parse_sign (String a rest) = (false, String a rest)
  /\ String.prefix "Infinity" (String a rest) = false.
Proof.
  intros Ha.
  assert (Hn : (48 <= N_of_ascii a <= 57)%N).
  { unfold is_digit, in_range in Ha. apply andb_true_iff in Ha.
    destruct Ha as [Hlo Hhi]. apply N.leb_le in Hlo, Hhi.
    change (N_of_ascii "0") with 48%N in Hlo. change (N_of_ascii "9") with 57%N in Hhi. lia. }
  assert (Hne : forall c, (N_of_ascii c < 48 \/ 57 < N_of_ascii c)%N -> Ascii.eqb a c = false).
  { intros c Hc. apply Ascii.eqb_neq. intros ->. lia. }
  assert (Hspace : is_space a = false).
  { unfold is_space, in_range. rewrite (Hne " "%char) by (left; reflexivity).
    rewrite orb_false_r. apply andb_false_iff. right. apply N.leb_gt.
    change (N_of_ascii "013") with 13%N. lia. }
  split; [cbn [ltrim]; rewrite Hspace; reflexivity|].
  split.
  - cbn [parse_sign]. rewrite (Hne "-"%char), (Hne "+"%char) by (left; reflexivity).
    reflexivity.
  - cbn [String.prefix].
    destruct (ascii_dec "I" a) as [<-|_]; [|reflexivity].
    change (N_of_ascii "I") with 73%N in Hn. lia.
Qed.


(** ** Rounding never yields [NaN] *)

Lemma shr_1_nonneg (mrs : shr_record) : 0 <= shr_m mrs -> 0 <= shr_m (shr_1 mrs).
Proof.
  destruct mrs as [m r s]. cbn [shr_m]. intros Hm.
  destruct m as [|p|p]; [reflexivity| |lia].
  destruct p; cbn [shr_1 shr_m]; lia.
Qed.

Lemma iter_shr_1_nonneg (p : positive) :
  forall mrs, 0 <= shr_m mrs -> 0 <= shr_m (SpecFloat.iter_pos shr_1 p mrs).
Proof.
  induction p as [p IH|p IH|]; intros mrs Hm; cbn [SpecFloat.iter_pos].
  - apply IH, IH, shr_1_nonneg, Hm.
  - apply IH, IH, Hm.
  - apply shr_1_nonneg, Hm.
Qed.

Lemma shr_fexp_nonneg (m e : Z) (l : location) :
  0 <= m -> 0 <= shr_m (shr_fexp prec emax m e l).1.
Proof.
  intros Hm. unfold shr_fexp, shr.
  assert (Hrec : 0 <= shr_m (shr_record_of_loc m l)).
  { destruct l as [|[| |]]; exact Hm. }
  destruct (fexp prec emax (Zdigits2 m + e) - e) as [|p|p]; cbn [fst]; try exact Hrec.
  apply iter_shr_1_nonneg, Hrec.
Qed.

Lemma round_nearest_even_nonneg (m : Z) (l : location) :
  0 <= m -> 0 <= round_nearest_even m l.
Proof.
  intros Hm. destruct l as [|[| |]]; cbn [round_nearest_even]; try lia.
  destruct (Z.even m); lia.
Qed.

Lemma binary_round_aux_not_nan (sx : bool) (mx ex : Z) (lx : location) :
  0 <= mx -> binary_round_aux prec emax sx mx ex lx <> S754_nan.
Proof.
  intros Hm. unfold binary_round_aux.
  pose proof (shr_fexp_nonneg mx ex lx Hm) as H1.
  destruct (shr_fexp prec emax mx ex lx) as [mrs' e']. cbn [fst] in H1.
  pose proof (shr_fexp_nonneg _ e' loc_Exact
                (round_nearest_even_nonneg _ (loc_of_shr_record mrs') H1)) as H2.
  destruct (shr_fexp prec emax (round_nearest_even (shr_m mrs') (loc_of_shr_record mrs'))
                     e' loc_Exact) as [mrs'' e''].
  cbn [fst] in H2.
  destruct (shr_m mrs'') as [|m|m]; [discriminate| |lia].
  destruct (e'' <=? emax - prec); discriminate.
Qed.

Lemma binary_normalize_not_nan (m e : Z) (szero : bool) :
  binary_normalize prec emax m e szero <> S754_nan.
Proof.
  unfold binary_normalize, binary_round.
  destruct m as [|p|p]; [discriminate|..];
    destruct (shl_align p e (fexp prec emax (Z.pos (digits2_pos p) + e))) as [mz ez];
    apply binary_round_aux_not_nan; lia.
Qed.

Lemma of_decimal_not_nan (neg : bool) (m e10 : Z) : of_decimal neg m e10 <> S754_nan.
Proof.
  unfold of_decimal, round_ratio.
  destruct (0 <=? e10);
    match goal with
    | |- (if ?c then _ else _) <> _ => destruct c; [discriminate|apply binary_normalize_not_nan]
    end.
Qed.

(** [parseFloat] returns [NaN] exactly on the texts that do not start with a
    numeral. *)
Lemma parseFloat_nan_iff (s : string) :
  parseFloat s = S754_nan <-> numeral_start s = false.
Proof.
  unfold parseFloat, numeral_start.
  destruct (parse_sign (ltrim s)) as [neg r].
  destruct (String.prefix "Infinity" r); [split; discriminate|].
  cbn [orb].
  destruct r as [|c r'].
  - cbn [span_digits nonempty orb]. split; reflexivity.
  - cbn [span_digits]. destruct (is_digit c) eqn:Hc.
    + destruct (span_digits r') as [d r1]. cbn [orb nonempty].
      match goal with
      | |- context [let '(fp, r2) := ?x in _] => destruct x as [fp r2]
      end.
      cbn [orb]. split; [intros Hnan; apply of_decimal_not_nan in Hnan; destruct Hnan|discriminate].
    + cbn [orb nonempty]. destruct (Ascii.eqb c ".") eqn:Hdot; cbn [andb].
      * destruct r' as [|d r'']; [cbn [span_digits nonempty]; split; reflexivity|].
        cbn [span_digits]. destruct (is_digit d) eqn:Hd.
        -- destruct (span_digits r'') as [ds r2]. cbn [nonempty].
           split; [intros Hnan; apply of_decimal_not_nan in Hnan; destruct Hnan|discriminate].
        -- cbn [nonempty]. split; reflexivity.
      * cbn [nonempty]. split; reflexivity.
Qed.

(** ** The downloaded file *)

(** C1 (the code departs from it): the description and the README say that
    the downloaded CSV has no header line.  [handleDownload] always writes the
    line of column names first: for every state the text is that line, a line
    feed, the data lines, and a line feed, which is never the text of the data
    lines alone; for a file with one completed row the download has two
    lines, the first being the column names. *)
Theorem download_starts_with_header {js : Builtins} :
  (forall st : State,
      handleDownload st =
        headerLine +:+ newline
          +:+ join newline (List.map csvLine (transformedFiltered st)) +:+ newline)
  /\ (forall st : State,
         handleDownload st <>
           join newline (List.map csvLine (transformedFiltered st)) +:+ newline)
  /\ handleDownload (onFileSelected plainFile initial) =
       headerLine +:+ newline
         +:+ "2025-08-01,Expense,47.00,EUR,Groceries,CONAD SUPERMARKET,Revolut,,Revolut CSV Transformer"
         +:+ newline.
Proof.
  split; [intros st; reflexivity|].
  split; [|vm_compute; reflexivity].
  intros st Heq. apply (f_equal String.length) in Heq.
  unfold handleDownload in Heq. cbv zeta in Heq.
  change (join "," cols) with headerLine in Heq.
  rewrite !length_app_string in Heq.
  change (String.length headerLine) with 60%nat in Heq. lia.
Qed.

(** ** The amount parser *)

(** C2 (the code departs from it): the description and the README say that
    the EU form and the US form of 1234.56 are read as the same number.
    The parser drops every dot and turns every comma into a dot, so the EU
    form is read as 1234.56 and the US form as 1.23456; the rows made from
    them carry the amounts 1234.56 and 1.23.  The other US amount of the
    README, -47.30, is read as -4730. *)
Theorem us_amount_is_misread {js : Builtins} :
  parseAmount "1.234,56" = of_decimal false 123456 (-2)
  /\ parseAmount "1,234.56" = of_decimal false 123456 (-5)
  /\ parseAmount "1,234.56" <> parseAmount "1.234,56"
  /\ parseAmount "-47.30" = of_decimal true 4730 0
  /\ Amount (transformRow initial {[ "Amount" := "1.234,56" ]}) = "1234.56"
  /\ Amount (transformRow initial {[ "Amount" := "1,234.56" ]}) = "1.23".
Proof.
  repeat split; try (vm_compute; reflexivity).
  vm_compute. discriminate.
Qed.

(** ** Sign, type and amount *)





Section Amounts.
Context {js : Builtins}.



(** C9: a row whose amount cell does not parse (the parser returns [NaN],
    which it does exactly when the cell, white space and dots removed, does
    not start with a numeral, as for the empty cell) is given the number
    zero, the amount 0.00 and the type Income; a missing cell reads as 0 with
    the same outcome; and the transformation yields one row for every
    filtered row, whatever the amount cells hold. *)
Theorem unparseable_amount_is_zero (st : State) :
  (forall r : RawRow,
      amtNum r = S754_nan <->
      numeral_start (normalizeAmount (default "0" (r !! "Amount"))) = false)
  /\ (forall r : RawRow,
      amtNum r = S754_nan ->
      or_zero (amtNum r) = S754_zero false
      /\ Amount (transformRow st r) = "0.00"
      /\ Type_ (transformRow st r) = "Income")
  /\ parseAmount EmptyString = S754_nan
  /\ (forall r : RawRow,
         r !! "Amount" = None ->
         Amount (transformRow st r) = "0.00" /\ Type_ (transformRow st r) = "Income")
  /\ length (transformedAll st) = length (filteredRows st).
Proof.
  split; [intros r; apply parseFloat_nan_iff|].
  split.
  { intros r Hnan. unfold transformRow. cbn [Type_ Amount]. rewrite Hnan.
    repeat split; reflexivity. }
  split; [vm_compute; reflexivity|].
  split.
  { intros r Hmiss. unfold transformRow, amtNum. cbn [Type_ Amount]. rewrite Hmiss.
    split; vm_compute; reflexivity. }
  unfold transformedAll. apply length_map.
Qed.

End Amounts.



Lemma unparseable_amount_is_zero_witness :
  let row := transformRow (js := host []) initial {[ "Amount" := "n/a" ]} in
  Amount row = "0.00" /\ Type_ row = "Income".
Proof.
  cbv zeta.
  destruct (@unparseable_amount_is_zero (host []) initial) as (_ & Hnan & _).
  assert (Hcell : amtNum {[ "Amount" := "n/a" ]} = S754_nan) by (vm_compute; reflexivity).
  destruct (Hnan _ Hcell) as (_ & Hamount & Htype).
  split; [exact Hamount | exact Htype].
Defined.

(** ** The example of the README *)

(** C3 (the code departs from it): the description expects the example line
    of the README to become one row with amount 47.30 and currency EUR.  The
    fallback parser splits the line at every comma, so the amount cell is -47,
    the fee cell is 30, the currency cell is empty and the state cell reads
    EUR: with the completed-only setting the row is dropped and nothing is
    produced; without it the row carries 47.00 and an empty currency. *)
Theorem readme_line_is_dropped {js : Builtins} :
  let st := onFileSelected (standardHeader +:+ newline +:+ readmeLine) initial in
  List.map (fun r : RawRow => (r !! "Amount", r !! "Fee", r !! "Currency", r !! "State"))
           (rawRows st)
    = [ (Some "-47", Some "30", Some EmptyString, Some "EUR") ]
  /\ dateField st = "Completed Date" /\ onlyCompleted st = true
  /\ transformedAll st = []
  /\ List.map row_list (transformedAll (withCompletedOnly false st)) =
       [ [ JStr "2025-08-01"; JStr "Expense"; JStr "47.00"; JStr EmptyString;
           JStr "Groceries"; JStr "CONAD SUPERMARKET"; JStr "Revolut";
           JStr EmptyString; JStr siteNameDefault ] ].
Proof.
  cbv zeta. repeat split; vm_compute; reflexivity.
Qed.

(** ** The heuristic categories *)

Lemma firstMatch_app (pre post : list (list string * string)) (s : string) :
  (forall ks cat, In (ks, cat) pre -> has_any s ks = false) ->
  firstMatch (pre ++ post) s = firstMatch post s.
Proof.
  induction pre as [|[ks cat] pre IH]; intros Hpre; [reflexivity|].
  simpl. rewrite (Hpre ks cat) by (left; reflexivity).
  apply IH. intros ks' cat' Hin. apply (Hpre ks' cat'). right. exact Hin.
Qed.

Lemma firstMatch_none (rules : list (list string * string)) (s : string) :
  (forall ks cat, In (ks, cat) rules -> has_any s ks = false) ->
  firstMatch rules s = "Other".
Proof.
  intros Hnone. rewrite <- (app_nil_r rules). rewrite firstMatch_app by exact Hnone.
  reflexivity.
Qed.

(** The chain of [if] statements is the priority list read from the top. *)
Lemma heuristicCategory_firstMatch (name : string) :
  heuristicCategory name = firstMatch heuristicRules (toLowerCase name).
Proof.
  unfold heuristicCategory. cbv zeta.
  generalize (toLowerCase name) as s. intros s.
  cbn [firstMatch heuristicRules has_any existsb].
  rewrite !orb_false_r, !orb_assoc. reflexivity.
Qed.

(** C8: the heuristic strategy is a function of the name alone, its rules are
    tried in the order of the priority list and the first rule with a keyword
    in the lower-cased name decides; Salary ACME is Income, Conad Superstore
    is Groceries, a name that matches no rule is Other, and an income keyword
    wins over every later rule: the name bonifico in entrata, which also
    contains the transfer keyword bonifico, is Income. *)
Theorem heuristic_priority :
  heuristicCategory "Salary ACME" = "Income"
  /\ heuristicCategory "Conad Superstore" = "Groceries"
  /\ (forall name pre ks cat post,
         heuristicRules = pre ++ (ks, cat) :: post ->
         (forall ks' cat', In (ks', cat') pre -> has_any (toLowerCase name) ks' = false) ->
         has_any (toLowerCase name) ks = true ->
         heuristicCategory name = cat)
  /\ (forall name,
         (forall ks cat, In (ks, cat) heuristicRules -> has_any (toLowerCase name) ks = false) ->
         heuristicCategory name = "Other")
  /\ (forall name,
         has_any (toLowerCase name) ["salary"; "stipend"; "payroll"; "bonifico in entrata"] = true ->
         heuristicCategory name = "Income")
  /\ (has_any (toLowerCase "bonifico in entrata")
              ["transfer"; "bonifico"; "internal transfer"; "worldpay"] = true
      /\ heuristicCategory "bonifico in entrata" = "Income").
Proof.
  split; [vm_compute; reflexivity|].
  split; [vm_compute; reflexivity|].
  split.
  { intros name pre ks cat post Hrules Hpre Hks.
    rewrite heuristicCategory_firstMatch, Hrules, firstMatch_app by exact Hpre.
    simpl. rewrite Hks. reflexivity. }
  split.
  { intros name Hnone. rewrite heuristicCategory_firstMatch.
    apply firstMatch_none. exact Hnone. }
  split.
  { intros name Hinc. rewrite heuristicCategory_firstMatch.
    cbn [firstMatch heuristicRules]. rewrite Hinc. reflexivity. }
  split; vm_compute; reflexivity.
Qed.

Lemma heuristic_priority_witness :
  heuristicCategory "Uber trip" = "Transport"
  /\ heuristicCategory "zzz" = "Other"
  /\ heuristicCategory "Payroll transfer ACME" = "Income".
Proof.
  destruct heuristic_priority as (_ & _ & Hfirst & Hother & Hincome & _).
  split.
  { apply (Hfirst "Uber trip" (firstn 6 heuristicRules)
                  ["trenitalia"; "italo"; "uber"; "taxi"; "flixbus"; "ryanair"; "wizz"]
                  "Transport" (skipn 7 heuristicRules)).
    - reflexivity.
    - intros ks' cat' Hin. simpl in Hin.
      repeat (destruct Hin as [Hin|Hin]; [inversion Hin; subst; vm_compute; reflexivity|]).
      destruct Hin.
    - vm_compute. reflexivity. }
  split.
  { apply (Hother "zzz"). intros ks cat Hin. simpl in Hin.
    repeat (destruct Hin as [Hin|Hin]; [inversion Hin; subst; vm_compute; reflexivity|]).
    destruct Hin. }
  apply (Hincome "Payroll transfer ACME"). vm_compute. reflexivity.
Defined.

(** ** The completed-only filter *)

Lemma upper_state_nonempty (r : RawRow) :
  String.eqb (toUpperCase (column_or r "State" EmptyString)) "COMPLETED" = true ->
  Nat.eqb (size r) 0 = false.
Proof.
  intros Hstate. apply Nat.eqb_neq. intros Hsize.
  apply map_size_empty_inv in Hsize. subst r.
  unfold column_or in Hstate. rewrite lookup_empty in Hstate. discriminate.
Qed.

Lemma filter_filter_absorb {A : Type} (p q : A -> bool) (l : list A) :
  (forall a, q a = true -> p a = true) ->
  List.filter q (List.filter p l) = List.filter q l.
Proof.
  intros Hpq. induction l as [|a l IH]; [reflexivity|]. simpl.
  destruct (p a) eqn:Hp; simpl.
  - rewrite IH. reflexivity.
  - destruct (q a) eqn:Hq; [|exact IH].
    rewrite (Hpq a Hq) in Hp. discriminate.
Qed.

(** C7, the claim as stated fails: a row whose State cell is spelled in lower
    case is admitted although its State is not the string COMPLETED. *)
Lemma lowercase_state_is_admitted :
  let r : RawRow := {[ "State" := "completed" ]} in
  let st := withRows [r] initial in
  onlyCompleted st = true
  /\ filteredRows st = [r]
  /\ r !! "State" <> Some "COMPLETED".
Proof.
  cbv zeta. split; [reflexivity|]. split; [vm_compute; reflexivity|].
  rewrite lookup_singleton_eq. discriminate.
Qed.

(** C7, amended: with the completed-only setting the filter keeps, in order,
    exactly the raw rows whose State cell reads COMPLETED once it is put in
    upper case (a missing State reads as empty): every admitted row has such a
    State, and every other row is discarded. *)
Theorem completed_filter_ignores_case (st : State) :
  onlyCompleted st = true ->
  filteredRows st =
    List.filter
      (fun r : RawRow => String.eqb (toUpperCase (column_or r "State" EmptyString)) "COMPLETED")
      (rawRows st)
  /\ (forall r : RawRow,
         In r (filteredRows st) <->
         In r (rawRows st) /\ toUpperCase (column_or r "State" EmptyString) = "COMPLETED").
Proof.
  intros Hflag.
  assert (Heq : filteredRows st =
    List.filter
      (fun r : RawRow => String.eqb (toUpperCase (column_or r "State" EmptyString)) "COMPLETED")
      (rawRows st)).
  { unfold filteredRows. rewrite Hflag. apply filter_filter_absorb.
    intros r Hr. rewrite (upper_state_nonempty r Hr). reflexivity. }
  split; [exact Heq|].
  intros r. rewrite Heq, filter_In, String.eqb_eq. reflexivity.
Qed.

Lemma completed_filter_ignores_case_witness :
  let rows : list RawRow :=
    [ {[ "State" := "Completed" ]}; {[ "State" := "PENDING" ]}; {[ "State" := "COMPLETED" ]} ] in
  filteredRows (withRows rows initial) =
    [ {[ "State" := "Completed" ]}; {[ "State" := "COMPLETED" ]} ].
Proof.
  cbv zeta.
  rewrite (proj1 (completed_filter_ignores_case (withRows _ initial) eq_refl)).
  vm_compute. reflexivity.
Defined.

(** ** Quoting and the fallback decoder *)

Lemma decode_plain_field (s : string) :
  needs_quoting s = false -> trim s = s -> s <> EmptyString ->
  data (fallbackParse ("h" +:+ newline +:+ s)) = [ {[ "h" := s ]} ].
Proof.
  intros Hplain Htrim Hne. unfold fallbackParse.
  change (split_lines ("h" +:+ newline +:+ s)) with ("h" :: split_lines s).
  rewrite split_lines_none
    by (revert Hplain; apply exists_char_weaken; intros a ->; apply orb_true_r).
  destruct s as [|a s']; [congruence|].
  cbn [List.filter nonempty List.map].
  rewrite (split_none comma (String a s'))
    by (revert Hplain; apply exists_char_weaken; intros b ->;
        rewrite orb_true_r; reflexivity).
  change (List.map trim (split comma "h")) with ["h"].
  unfold record_of, indexed. cbn [length seq combine fold_left fst snd cell nth].
  rewrite Htrim. reflexivity.
Qed.

Lemma decodeLine_cells (line : string) :
  decodeLine line =
    List.map (fun l => Some (trim (cell (split comma l) 0)))
             (List.filter nonempty (split_lines line)).
Proof.
  unfold decodeLine, fallbackParse.
  change (split_lines ("h" +:+ newline +:+ line)) with ("h" :: split_lines line).
  cbn [List.filter nonempty data].
  change (List.map trim (split comma "h")) with ["h"].
  rewrite List.map_map. apply List.map_ext. intros l.
  unfold record_of, indexed. cbn [length seq combine fold_left fst snd].
  apply lookup_insert_eq.
Qed.

(** A decoded cell holds neither a comma nor a line feed. *)
Lemma decoded_cell_plain (line cellText : string) :
  In (Some cellText) (decodeLine line) ->
  exists_char (fun a => Ascii.eqb a comma) cellText = false
  /\ exists_char (fun a => Ascii.eqb a LF) cellText = false.
Proof.
  rewrite decodeLine_cells, in_map_iff. intros (l & [= <-] & Hl).
  apply filter_In in Hl. destruct Hl as [Hl _].
  pose proof (split_lines_pieces line) as Hlines.
  rewrite List.Forall_forall in Hlines. specialize (Hlines l Hl).
  destruct (cell_0_of_split comma l) as (w & ws & Hsplit & ->).
  pose proof (split_pieces comma (fun a => Ascii.eqb a LF) l) as Hpieces.
  rewrite Hsplit in Hpieces. apply Forall_cons_1 in Hpieces.
  destruct Hpieces as [[Hsep Hsub] _]. split.
  - destruct (exists_char (fun a => Ascii.eqb a comma) (trim w)) eqn:Ht; [|reflexivity].
    apply trim_sub in Ht. congruence.
  - destruct (exists_char (fun a => Ascii.eqb a LF) (trim w)) eqn:Ht; [|reflexivity].
    apply trim_sub, Hsub in Ht. congruence.
Qed.

Lemma replace_dquote_sub (p : ascii -> bool) (s : string) :
  p dquote = false ->
  exists_char p s = false -> exists_char p (replace_char dquote doubled s) = false.
Proof.
  intros Hq. induction s as [|a s IH]; cbn [exists_char replace_char]; [reflexivity|].
  rewrite orb_false_iff. intros [Ha Hs].
  destruct (Ascii.eqb a dquote).
  - change (doubled +:+ replace_char dquote doubled s)
      with (String dquote (String dquote (replace_char dquote doubled s))).
    cbn [exists_char]. rewrite Hq, (IH Hs). reflexivity.
  - cbn [exists_char]. rewrite Ha, (IH Hs). reflexivity.
Qed.

Lemma replace_dquote_length (s : string) :
  (String.length s <= String.length (replace_char dquote doubled s))%nat.
Proof.
  induction s as [|a s IH]; cbn [replace_char String.length]; [lia|].
  destruct (Ascii.eqb a dquote).
  - change (doubled +:+ replace_char dquote doubled s)
      with (String dquote (String dquote (replace_char dquote doubled s))).
    cbn [String.length]. lia.
  - cbn [String.length]. lia.
Qed.

Lemma quotedForm_longer (s : string) : quotedForm s <> s.
Proof.
  intros Heq. apply (f_equal String.length) in Heq. unfold quotedForm in Heq.
  rewrite length_app_string in Heq. cbn [String.length] in Heq.
  pose proof (replace_dquote_length s). lia.
Qed.

Lemma trim_quotedForm (s : string) : trim (quotedForm s) = quotedForm s.
Proof.
  unfold trim, quotedForm.
  change (ltrim (String dquote (replace_char dquote doubled s) +:+ String dquote EmptyString))
    with (String dquote (replace_char dquote doubled s) +:+ String dquote EmptyString).
  apply rtrim_ends. reflexivity.
Qed.

(** A quoted form without comma and line feed is read back as it is, with
    its quotes. *)
Lemma decode_quotedForm (s : string) :
  exists_char (fun a => Ascii.eqb a comma) s = false ->
  exists_char (fun a => Ascii.eqb a LF) s = false ->
  decodeLine (quotedForm s) = [Some (quotedForm s)].
Proof.
  intros Hcomma Hlf.
  assert (Hplain : forall c, Ascii.eqb dquote c = false ->
            exists_char (fun a => Ascii.eqb a c) s = false ->
            exists_char (fun a => Ascii.eqb a c) (quotedForm s) = false).
  { intros c Hc Hs. unfold quotedForm.
    change (String dquote (replace_char dquote doubled s) +:+ String dquote EmptyString)
      with (String dquote (replace_char dquote doubled s +:+ String dquote EmptyString)).
    cbn [exists_char]. rewrite exists_char_app. cbn [exists_char].
    rewrite Hc, (replace_dquote_sub _ s Hc Hs). reflexivity. }
  rewrite decodeLine_cells, split_lines_none by (apply Hplain; [reflexivity|exact Hlf]).
  cbn [List.filter]. change (nonempty (quotedForm s)) with true. cbn [List.map].
  rewrite split_none by (apply Hplain; [reflexivity|exact Hcomma]).
  cbn [cell nth]. rewrite trim_quotedForm. reflexivity.
Qed.

Section Quoting.
Context {js : Builtins}.

(** C5, amended: [csvEscape] puts a field between double quotes, its own
    double quotes written twice, exactly when the field holds a double
    quote, a comma or a line feed, and leaves it as it is otherwise; the
    field of the example (He said, Hi between quotes, a comma, bye) becomes
    its quoted form, Hi between two pairs of quotes.  The decoder
    of the repository, [fallbackParse], splits at every comma and removes no
    quote: it returns the original field when the field needed no quoting
    (and is not empty and has no white space around it), and it never
    returns the original of a field that was quoted. *)
Theorem quoting_rule_and_fallback_decoding :
  (forall s,
      needs_quoting s = true <->
      exists c, In c (list_ascii_of_string s) /\ (c = dquote \/ c = comma \/ c = LF))
  /\ (forall s, needs_quoting s = true -> csvEscape (JStr s) = quotedForm s)
  /\ (forall s, needs_quoting s = false -> csvEscape (JStr s) = s)
  /\ csvEscape (JStr ("He said " +:+ quoted "Hi" +:+ ", bye"))
     = quoted ("He said " +:+ quoted (quoted "Hi") +:+ ", bye")
  /\ (forall s,
         needs_quoting s = false -> trim s = s -> s <> EmptyString ->
         decodeLine (csvEscape (JStr s)) = [Some s])
  /\ (forall s, needs_quoting s = true -> decodeLine (csvEscape (JStr s)) <> [Some s]).
Proof.
  split.
  { intros s. unfold needs_quoting. rewrite exists_char_In.
    split; intros (c & Hc & Hp); exists c; (split; [exact Hc|]).
    - apply orb_true_iff in Hp. destruct Hp as [Hp|Hp];
        [apply orb_true_iff in Hp; destruct Hp as [Hp|Hp]|];
        apply Ascii.eqb_eq in Hp; auto.
    - destruct Hp as [-> | [-> | ->]]; reflexivity. }
  split.
  { intros s Hs. unfold csvEscape, csvEscapeString. cbn [to_String]. rewrite Hs. reflexivity. }
  split.
  { intros s Hs. unfold csvEscape, csvEscapeString. cbn [to_String]. rewrite Hs. reflexivity. }
  split; [vm_compute; reflexivity|].
  split.
  { intros s Hs Htrim Hne. unfold csvEscape, csvEscapeString. cbn [to_String]. rewrite Hs.
    unfold decodeLine. rewrite (decode_plain_field s Hs Htrim Hne).
    cbn [List.map]. rewrite lookup_singleton_eq. reflexivity. }
  intros s Hs Hback. unfold csvEscape, csvEscapeString in Hback.
  cbn [to_String] in Hback. rewrite Hs in Hback.
  assert (Hin : In (Some s) (decodeLine (quotedForm s))) by (rewrite Hback; left; reflexivity).
  destruct (decoded_cell_plain _ _ Hin) as [Hcomma Hlf].
  rewrite (decode_quotedForm s Hcomma Hlf) in Hback.
  injection Hback as Hback. exact (quotedForm_longer s Hback).
Qed.

End Quoting.

(** C5, the claim as stated fails: the quoted form of the field of the
    example is not decoded back to the field; the decoder returns the text
    before the first comma, with the quotes that the encoder wrote. *)
Lemma quoted_field_is_not_decoded :
  let field := "He said " +:+ quoted "Hi" +:+ ", bye" in
  let encoded := csvEscape (js := host []) (JStr field) in
  encoded = quoted ("He said " +:+ quoted (quoted "Hi") +:+ ", bye")
  /\ decodeLine encoded = [ Some (String dquote ("He said " +:+ quoted (quoted "Hi"))) ]
  /\ decodeLine encoded <> [ Some field ].
Proof.
  cbv zeta. split; [vm_compute; reflexivity|]. split; [vm_compute; reflexivity|].
  vm_compute. discriminate.
Qed.

Lemma quoting_rule_and_fallback_decoding_witness :
  csvEscape (js := host []) (JStr "a,b") = quotedForm "a,b"
  /\ decodeLine (csvEscape (js := host []) (JStr "CONAD SUPERMARKET")) = [Some "CONAD SUPERMARKET"]
  /\ decodeLine (csvEscape (js := host []) (JStr "a,b")) <> [Some "a,b"].
Proof.
  destruct (@quoting_rule_and_fallback_decoding (host [])) as (_ & Hq & _ & _ & Hplain & Hnot).
  split; [apply Hq; reflexivity|].
  split.
  - apply Hplain; [reflexivity|reflexivity|discriminate].
  - apply Hnot. reflexivity.
Defined.

(** ** Objects: reading and writing properties *)

Lemma last_binding_app (k : string) (xs ys : list (string * json)) :
  last_binding k (xs ++ ys)
  = match last_binding k ys with
    | Some v => Some v
    | None => last_binding k xs
    end.
Proof.
  unfold last_binding. rewrite fold_left_app.
  generalize (fold_left (fun acc (kv : string * json) => if String.eqb kv.1 k then Some kv.2 else acc)
                        xs None) as start.
  induction ys as [|[k' v'] ys IH] using rev_ind; intros start; [reflexivity|].
  rewrite !fold_left_app. cbn [fold_left fst snd].
  destruct (String.eqb k' k); [reflexivity|apply IH].
Qed.







Section ObjectFacts.
Context {js : Builtins}.

Lemma set_property_other (o : object) (k k' : string) (x : json) :
  k' <> k -> set_property o k' x !! k = o !! k.
Proof.
  intros Hne. unfold set_property.
  destruct (String.eqb k' protoKey && setter_reached o).
  - destruct x; reflexivity.
  - apply lookup_insert_ne. exact Hne.
Qed.

Lemma set_property_same (o : object) (k : string) (x : json) :
  k <> protoKey -> set_property o k x !! k = Some x.
Proof.
  intros Hne. unfold set_property. apply String.eqb_neq in Hne. rewrite Hne. cbn [andb].
  apply lookup_insert_eq.
Qed.

Lemma set_property_prototype (o : object) (k : string) (x : json) :
  k <> protoKey -> prototype (set_property o k x) = prototype o.
Proof.
  intros Hne. unfold set_property. apply String.eqb_neq in Hne. rewrite Hne. reflexivity.
Qed.



Lemma assign_entries_lookup (entries : list (string * json)) (k : string) :
  k <> protoKey ->
  forall target,
    assign_entries target entries !! k
    = match last_binding k entries with
      | Some v => Some v
      | None => target !! k
      end.
Proof.
  intros Hne. unfold assign_entries.
  induction entries as [|[k' v'] entries IH] using rev_ind; intros target; [reflexivity|].
  rewrite fold_left_app, last_binding_app. cbn [fold_left fst snd].
  unfold last_binding at 1. cbn [fold_left fst snd].
  destruct (String.eqb k' k) eqn:Hk.
  - apply String.eqb_eq in Hk. subst k'. apply set_property_same. exact Hne.
  - apply String.eqb_neq in Hk. rewrite set_property_other by exact Hk. apply IH.
Qed.



Lemma setter_reached_other (o : object) (k : string) (x : json) :
  k <> protoKey -> setter_reached (set_property o k x) = setter_reached o.
Proof.
  intros Hne. unfold setter_reached.
  pose proof (set_property_other o protoKey k x Hne) as Hown.
  unfold lookup, object_lookup in Hown. rewrite Hown.
  rewrite (set_property_prototype o k x Hne). reflexivity.
Qed.


Lemma set_property_plain (o : object) (k : string) (x : json) :
  k <> protoKey -> set_property o k x = Obj (<[k := x]> (own o)) (prototype o).
Proof.
  intros Hne. unfold set_property. apply String.eqb_neq in Hne. rewrite Hne. reflexivity.
Qed.

Lemma set_property_proto (o : object) (x : json) :
  set_property o protoKey x
  = if setter_reached o
    then match x with
         | JNull => Obj (own o) NullPrototype
         | JObj _ | JArr _ | JBuiltin _ => Obj (own o) (ValuePrototype x)
         | JBool _ | JNum _ | JStr _ => o
         end
    else Obj (<[protoKey := x]> (own o)) (prototype o).
Proof.
  unfold set_property. change (String.eqb protoKey protoKey) with true. reflexivity.
Qed.

Lemma set_property_commute_proto (o : object) (k : string) (x1 x2 : json) :
  k <> protoKey ->
  set_property (set_property o protoKey x1) k x2
  = set_property (set_property o k x2) protoKey x1.
Proof.
  intros Hne.
  rewrite (set_property_proto (set_property o k x2)), (setter_reached_other o k x2 Hne).
  rewrite (set_property_plain _ k x2 Hne), (set_property_plain o k x2 Hne), set_property_proto.
  destruct (setter_reached o).
  - destruct o as [props p]. destruct x1; reflexivity.
  - cbn [own prototype]. f_equal. apply insert_insert_ne. congruence.
Qed.

(** Assignments to different names can be made in either order. *)
Lemma set_property_commute (o : object) (k1 k2 : string) (x1 x2 : json) :
  k1 <> k2 ->
  set_property (set_property o k1 x1) k2 x2 = set_property (set_property o k2 x2) k1 x1.
Proof.
  intros Hne.
  destruct (decide (k1 = protoKey)) as [-> | H1].
  - apply set_property_commute_proto. congruence.
  - destruct (decide (k2 = protoKey)) as [-> | H2].
    + symmetry. apply set_property_commute_proto. exact H1.
    + rewrite !set_property_plain by assumption. cbn [own prototype].
      f_equal. apply insert_insert_ne. congruence.
Qed.

(** The order in which the properties of a source are assigned has no
    bearing on the outcome. *)
Lemma assign_entries_permutation (entries entries' : list (string * json)) :
  Permutation entries entries' ->
  NoDup (List.map fst entries) ->
  forall target, assign_entries target entries = assign_entries target entries'.
Proof.
  induction 1 as [|[k x] l l' Hperm IH|[k1 x1] [k2 x2] l|l l' l'' Hperm1 IH1 Hperm2 IH2];
    intros Hnd target.
  - reflexivity.
  - cbn [List.map fst] in Hnd. apply NoDup_cons in Hnd.
    apply (IH (proj2 Hnd) (set_property target k x)).
  - cbn [List.map fst] in Hnd. apply NoDup_cons in Hnd. destruct Hnd as [Hne _].
    unfold assign_entries. cbn [fold_left fst snd]. rewrite set_property_commute; [reflexivity|].
    intros ->. apply Hne. left.
  - rewrite (IH1 Hnd target). apply IH2.
    apply (proj1 (NoDup_Permutation_proper _ _ (Permutation_map fst Hperm1)) Hnd).
Qed.

(** ** The classifier: what a reply adds to the mapping *)



End ObjectFacts.

Section ClassifierFacts.
Context {js : Builtins}.
Variable net : nat -> Request -> Response.

Lemma heuristicAll_entries (group : list string) (mapping : object) :
  heuristicAll group mapping
  = assign_entries mapping (List.map (fun n => (n, JStr (heuristicCategory n))) group).
Proof.
  unfold heuristicAll, assign_entries. revert mapping.
  induction group as [|n group IH]; intros mapping; [reflexivity|].
  cbn [fold_left List.map fst snd]. apply IH.
Qed.







End ClassifierFacts.



(** ** The classifier: a failing batch *)

Section FailingBatch.
Context {js : Builtins}.
Variable net : nat -> Request -> Response.

Lemma classifyLoop_app apiKey model (before after : list (list string)) :
  forall i mapping,
    classifyLoop net apiKey model i (before ++ after) mapping =
      match classifyLoop net apiKey model i before mapping with
      | (sent, Ok partial) =>
          let '(sent', r) :=
            classifyLoop net apiKey model (i + length before) after partial in
          (sent ++ sent', r)
      | (sent, Throw e) => (sent, Throw e)
      end.
Proof.
  induction before as [|group before IH]; intros i mapping.
  - cbn [app classifyLoop length]. rewrite Nat.add_0_r.
    destruct (classifyLoop net apiKey model i after mapping) as [sent r]. reflexivity.
  - cbn [app classifyLoop length].
    destruct (classifyGroup net apiKey model i group mapping) as [merged|e]; [|reflexivity].
    rewrite IH.
    destruct (classifyLoop net apiKey model (S i) before merged) as [sent [partial|e]];
      [|reflexivity].
    replace (S i + length before)%nat with (i + S (length before))%nat by lia.
    destruct (classifyLoop net apiKey model (i + S (length before)) after partial) as [sent' r].
    reflexivity.
Qed.

(** The ways in which the turn of a group fails: the request or the reading
    of its response throws, the response is not a success, or the reply
    parses neither as it is nor through its brace-delimited part. *)
Lemma classifyGroup_throws apiKey model i group mapping e :
  classifyGroup net apiKey model i group mapping = Throw e <->
  net i (request_of apiKey model group) = Rejected e
  \/ (exists status text,
        net i (request_of apiKey model group) = NotOk status text
        /\ e = Exn "Error" ("OpenAI API error: " +:+ of_N status +:+ " " +:+ text))
  \/ (exists c e0 m,
        net i (request_of apiKey model group) = Content c
        /\ JSON_parse (reply_text c) = Throw e0
        /\ match_braces (reply_text c) = Some m
        /\ JSON_parse m = Throw e).
Proof.
  unfold classifyGroup, mergeReply.
  destruct (net i (request_of apiKey model group)) as [e'|status text|c].
  - split.
    + intros [= ->]. left. reflexivity.
    + intros [[= ->]|[(status & text & Hnet & _)|(c & e0 & m & Hnet & _)]];
        [reflexivity|discriminate|discriminate].
  - split.
    + intros [= <-]. right. left. exists status, text. split; reflexivity.
    + intros [Hnet|[(status' & text' & [= -> ->] & ->)|(c & e0 & m & Hnet & _)]];
        [discriminate|reflexivity|discriminate].
  - split.
    + intros Hthrow. right. right.
      destruct (JSON_parse (reply_text c)) as [obj|e0] eqn:Hparse; [discriminate|].
      destruct (match_braces (reply_text c)) as [m|] eqn:Hbraces; [|discriminate].
      destruct (JSON_parse m) as [obj|e1] eqn:Hinner; [discriminate|].
      injection Hthrow as ->. exists c, e0, m. repeat split; assumption.
    + intros [Hnet|[(status & text & Hnet & _)|(c' & e0 & m & [= <-] & Hparse & Hbraces & Hinner)]];
        [discriminate|discriminate|].
      rewrite Hparse, Hbraces, Hinner. reflexivity.
Qed.

(** A batch that fails after [k] successful ones ends the run: the groups
    sent are the first [k + 1], and the error is the outcome. *)
Lemma classifyLoop_fails_at apiKey model (groups : list (list string)) k group partial e :
  groups !! k = Some group ->
  classifyLoop net apiKey model 0 (firstn k groups) ∅ = (firstn k groups, Ok partial) ->
  classifyGroup net apiKey model k group partial = Throw e ->
  classifyLoop net apiKey model 0 groups ∅ = (firstn (S k) groups, Throw e).
Proof.
  intros Hk Hbefore Hfail.
  rewrite <- (take_drop_middle groups k group Hk) at 1.
  rewrite classifyLoop_app, Hbefore.
  rewrite length_take_le by (apply Nat.lt_le_incl, (lookup_lt_Some _ _ _ Hk)).
  cbn [classifyLoop Nat.add]. rewrite Hfail.
  rewrite (take_S_r groups k group Hk). reflexivity.
Qed.

(** C4, amended: when the turn of a batch fails (see [classifyGroup_throws]:
    a response that is not a success, a network error, an unreadable reply)
    after the batches before it succeeded, no later batch is sent, the
    message of the error is appended to the errors and the status is
    cleared; the category map of the session is left as it was before the
    run, so the mappings of the batches that succeeded are not kept. *)
Theorem failed_batch_discards_progress
        (st : State) (k : nat) (group : list string)
        (partial : object) (e : exn) :
  let groups := chunks (uniqueNames st) in
  nonempty (apiKey st) = true ->
  groups !! k = Some group ->
  classifyLoop net (apiKey st) (model st) 0 (firstn k groups) ∅
    = (firstn k groups, Ok partial) ->
  classifyGroup net (apiKey st) (model st) k group partial = Throw e ->
  let out := handleClassify net st in
  out.1 = firstn (S k) groups
  /\ categoryMap out.2 = categoryMap st
  /\ errors out.2 = errors st ++ [surfaced e]
  /\ status out.2 = EmptyString
  /\ rawRows out.2 = rawRows st.
Proof.
  intros groups Hkey Hk Hbefore Hfail out. subst out.
  unfold handleClassify, classifyWithOpenAI. rewrite Hkey.
  fold groups. rewrite (classifyLoop_fails_at _ _ groups k group partial e Hk Hbefore Hfail).
  repeat split; reflexivity.
Qed.

End FailingBatch.

(** C4, the claim as stated fails: in a run of two batches whose first reply
    maps "shop 0" to Groceries and whose second request is refused, the
    mapping of the first batch holds that pair, while the category map of the
    session after the run does not. *)
Lemma partial_progress_is_lost :
  let groups := chunks (uniqueNames shopSession) in
  length groups = 2%nat
  /\ (exists partial,
        classifyLoop (js := shopHost) flakyNet "sk-test" "gpt-4o-mini" 0 (firstn 1 groups) ∅
          = (firstn 1 groups, Ok partial)
        /\ partial !! "shop 0" = Some (JStr "Groceries"))
  /\ (handleClassify (js := shopHost) flakyNet shopSession).1 = groups
  /\ errors (handleClassify (js := shopHost) flakyNet shopSession).2
       = ["OpenAI API error: 500 server error"]
  /\ categoryMap (handleClassify (js := shopHost) flakyNet shopSession).2 !! "shop 0" = None.
Proof.
  cbv zeta. split; [vm_compute; reflexivity|].
  split.
  { eexists. split; [vm_compute; reflexivity|]. vm_compute. reflexivity. }
  repeat split; vm_compute; reflexivity.
Qed.

Lemma failed_batch_discards_progress_witness :
  let out := handleClassify (js := shopHost) flakyNet shopSession in
  out.1 = chunks (uniqueNames shopSession)
  /\ categoryMap out.2 = ∅
  /\ errors out.2 = ["OpenAI API error: 500 server error"]
  /\ status out.2 = EmptyString.
Proof.
  cbv zeta.
  pose proof (@failed_batch_discards_progress shopHost flakyNet shopSession 1 ["shop 40"]
                {[ "shop 0" := JStr "Groceries" ]}
                (Exn "Error" "OpenAI API error: 500 server error")) as Hrun.
  cbv zeta in Hrun.
  assert (Hkey : nonempty (apiKey shopSession) = true) by reflexivity.
  assert (Hk : chunks (uniqueNames shopSession) !! 1%nat = Some ["shop 40"])
    by (vm_compute; reflexivity).
  assert (Hbefore :
    classifyLoop (js := shopHost) flakyNet (apiKey shopSession) (model shopSession) 0
                 (firstn 1 (chunks (uniqueNames shopSession))) ∅
    = (firstn 1 (chunks (uniqueNames shopSession)), Ok {[ "shop 0" := JStr "Groceries" ]}))
    by (vm_compute; reflexivity).
  assert (Hfail :
    classifyGroup (js := shopHost) flakyNet (apiKey shopSession) (model shopSession) 1
                  ["shop 40"] {[ "shop 0" := JStr "Groceries" ]}
    = Throw (Exn "Error" "OpenAI API error: 500 server error"))
    by (vm_compute; reflexivity).
  destruct (Hrun Hkey Hk Hbefore Hfail) as (Hsent & Hmap & Herrors & Hstatus & _).
  split; [rewrite Hsent; vm_compute; reflexivity|].
  split; [exact Hmap|]. split; [exact Herrors|exact Hstatus].
Defined.

(** * Further properties of the code *)

(** ** Batches *)

Lemma concat_chunks_upto (names : list string) (k : nat) :
  concat (List.map (fun j => firstn CHUNK (skipn (j * CHUNK) names)) (seq 0 k))
  = firstn (k * CHUNK) names.
Proof.
  induction k as [|k IH]; [reflexivity|].
  rewrite seq_S, List.map_app, concat_app, IH. cbn [List.map concat Nat.add].
  rewrite app_nil_r, take_take_drop. f_equal. lia.
Qed.

Lemma chunks_count_bounds (names : list string) :
  let k := ((length names + CHUNK - 1) / CHUNK)%nat in
  (length names <= k * CHUNK)%nat /\ forall j, (j < k)%nat -> (j * CHUNK < length names)%nat.
Proof.
  cbv zeta. unfold CHUNK.
  pose proof (Nat.div_mod_eq (length names + 40 - 1) 40) as Hdm.
  pose proof (Nat.mod_upper_bound (length names + 40 - 1) 40 ltac:(lia)) as Hmod.
  split; [lia|]. intros j Hj. nia.
Qed.

Lemma concat_chunks (names : list string) : concat (chunks names) = names.
Proof.
  unfold chunks. rewrite concat_chunks_upto. apply firstn_all2.
  apply (chunks_count_bounds names).
Qed.

(** X1. The batches of a run cut the list of names into consecutive groups:
    put end to end they give the names back, every batch holds between one and
    forty names, and there are as many batches as the number of names divided
    by forty, rounded up. *)
Theorem chunks_partition (names : list string) :
  concat (chunks names) = names
  /\ Forall (fun group => (1 <= length group <= CHUNK)%nat) (chunks names)
  /\ length (chunks names) = ((length names + CHUNK - 1) / CHUNK)%nat.
Proof.
  split; [apply concat_chunks|]. unfold chunks.
  destruct (chunks_count_bounds names) as [Hcover Hinside]. cbv zeta in Hinside.
  split.
  - apply List.Forall_forall. intros group Hin.
    apply in_map_iff in Hin. destruct Hin as (j & <- & Hj).
    apply in_seq in Hj. specialize (Hinside j ltac:(lia)).
    rewrite length_take, length_drop. unfold CHUNK in *. lia.
  - rewrite length_map, length_seq. reflexivity.
Qed.

(** ** The names sent to the classifier *)

Lemma set_add_In (seen : list string) (name n : string) :
  In n (set_add seen name) <-> In n seen \/ n = name.
Proof.
  unfold set_add. destruct (existsb (String.eqb name) seen) eqn:Hex.
  - apply existsb_exists in Hex. destruct Hex as (x & Hx & Heq).
    apply String.eqb_eq in Heq. subst x. split; [auto|]. intros [H| ->]; assumption.
  - rewrite in_app_iff. cbn [In]. split; intros [H|H]; auto.
    + destruct H as [<- |[]]. auto.
Qed.

Lemma set_add_NoDup (seen : list string) (name : string) :
  NoDup seen -> NoDup (set_add seen name).
Proof.
  intros Hnd. unfold set_add. destruct (existsb (String.eqb name) seen) eqn:Hex; [exact Hnd|].
  apply NoDup_app. split; [exact Hnd|]. split; [|apply NoDup_singleton].
  intros x Hx Hx'. apply list_elem_of_In in Hx. apply list_elem_of_In in Hx'.
  destruct Hx' as [Heq | []]. subst x.
  assert (existsb (String.eqb name) seen = true); [|congruence].
  apply existsb_exists. exists name. split; [exact Hx|apply String.eqb_refl].
Qed.

Lemma fold_addName (rows : list RawRow) :
  forall seen,
    (NoDup seen -> NoDup (fold_left addName rows seen))
    /\ forall n,
         In n (fold_left addName rows seen) <->
         In n seen
         \/ (nonempty n = true
             /\ exists r, In r rows /\ trim (column_or r "Description" EmptyString) = n).
Proof.
  induction rows as [|r rows IH]; intros seen; cbn [fold_left].
  - split; [auto|]. intros n. split; [auto|]. intros [H|(_ & r & [] & _)]. exact H.
  - destruct (IH (addName seen r)) as [IHnd IHin]. split.
    + intros Hnd. apply IHnd. unfold addName. cbv zeta.
      destruct (nonempty _); [apply set_add_NoDup|]; exact Hnd.
    + intros n. rewrite IHin. unfold addName at 1. cbv zeta.
      destruct (nonempty (trim (column_or r "Description" EmptyString))) eqn:Hne.
      * rewrite set_add_In. split.
        -- intros [[H| ->]|(Hn & r' & Hr' & Heq)]; [auto| |].
           ++ right. split; [exact Hne|]. exists r. split; [left; reflexivity|reflexivity].
           ++ right. split; [exact Hn|]. exists r'. split; [right; exact Hr'|exact Heq].
        -- intros [H|(Hn & r' & [<- |Hr'] & Heq)]; [auto| |].
           ++ left. right. symmetry. exact Heq.
           ++ right. split; [exact Hn|]. exists r'. split; assumption.
      * split.
        -- intros [H|(Hn & r' & Hr' & Heq)]; [auto|].
           right. split; [exact Hn|]. exists r'. split; [right; exact Hr'|exact Heq].
        -- intros [H|(Hn & r' & [<- |Hr'] & Heq)]; [auto| |].
           ++ rewrite Heq in Hne. congruence.
           ++ right. split; [exact Hn|]. exists r'. split; assumption.
Qed.

(** ** Trimming *)

Lemma ltrim_head (s : string) :
  match ltrim s with
  | String a _ => is_space a = false
  | EmptyString => True
  end.
Proof.
  induction s as [|a s IH]; cbn [ltrim]; [exact I|].
  destruct (is_space a) eqn:Ha; [exact IH|exact Ha].
Qed.

Lemma rtrim_idem (s : string) : rtrim (rtrim s) = rtrim s.
Proof.
  induction s as [|a s IH]; [reflexivity|]. cbn [rtrim].
  destruct (rtrim s) as [|b t] eqn:Ht.
  - destruct (is_space a) eqn:Ha; [reflexivity|]. cbn [rtrim]. rewrite Ha. reflexivity.
  - cbn [rtrim] in IH |- *. rewrite IH. reflexivity.
Qed.

Lemma rtrim_keeps_head (a : ascii) (s : string) :
  is_space a = false -> exists t, rtrim (String a s) = String a t.
Proof.
  intros Ha. cbn [rtrim]. destruct (rtrim s) as [|b t].
  - rewrite Ha. eauto.
  - eauto.
Qed.

Lemma trim_idem (s : string) : trim (trim s) = trim s.
Proof.
  unfold trim. pose proof (ltrim_head s) as Hhead.
  destruct (ltrim s) as [|a u]; [reflexivity|].
  destruct (rtrim_keeps_head a u Hhead) as [t Ht]. rewrite Ht.
  cbn [ltrim]. rewrite Hhead, <- Ht. apply rtrim_idem.
Qed.

Lemma uniqueNames_In (st : State) (n : string) :
  In n (uniqueNames st) <->
  nonempty n = true
  /\ exists r, In r (filteredRows st) /\ trim (column_or r "Description" EmptyString) = n.
Proof.
  change (uniqueNames st) with (fold_left addName (filteredRows st) []).
  destruct (fold_addName (filteredRows st) []) as [_ Hin].
  rewrite Hin. split; [intros [[]|H]; exact H|auto].
Qed.

(** X2. The names sent to the classifier are distinct, not empty and trimmed,
    and they are the trimmed descriptions of the filtered rows. *)
Theorem uniqueNames_distinct (st : State) :
  NoDup (uniqueNames st)
  /\ (forall n,
         In n (uniqueNames st) <->
         nonempty n = true
         /\ exists r, In r (filteredRows st)
                      /\ trim (column_or r "Description" EmptyString) = n)
  /\ (forall n, In n (uniqueNames st) -> trim n = n).
Proof.
  split; [|split; [apply uniqueNames_In|]].
  - change (uniqueNames st) with (fold_left addName (filteredRows st) []).
    apply (fold_addName (filteredRows st) []). constructor.
  - intros n Hn. apply uniqueNames_In in Hn. destruct Hn as (_ & r & _ & <-). apply trim_idem.
Qed.

Lemma uniqueNames_distinct_witness :
  let st := withRows [ {[ "Description" := " CONAD " ]} ] (withCompletedOnly false initial) in
  In "CONAD" (uniqueNames st) /\ trim "CONAD" = "CONAD".
Proof.
  cbv zeta.
  destruct (uniqueNames_distinct
              (withRows [ {[ "Description" := " CONAD " ]} ] (withCompletedOnly false initial)))
    as (_ & Hin & Htrim).
  assert (Hrows : filteredRows
                    (withRows [ {[ "Description" := " CONAD " ]} ]
                              (withCompletedOnly false initial))
                  = [ {[ "Description" := " CONAD " ]} ]) by (vm_compute; reflexivity).
  assert (Hname : trim (column_or {[ "Description" := " CONAD " ]} "Description" EmptyString)
                  = "CONAD") by (vm_compute; reflexivity).
  assert (Hmem : In "CONAD"
                    (uniqueNames
                       (withRows [ {[ "Description" := " CONAD " ]} ]
                                 (withCompletedOnly false initial)))).
  { apply (proj2 (Hin "CONAD")). split; [reflexivity|].
    exists {[ "Description" := " CONAD " ]}. rewrite Hrows.
    split; [left; reflexivity|exact Hname]. }
  split; [exact Hmem|]. exact (Htrim "CONAD" Hmem).
Defined.

(** ** The type filter *)

Section TypeFilter.
Context {js : Builtins}.

Lemma row_type (st : State) (r : RawRow) :
  Type_ (transformRow st r) = "Expense" \/ Type_ (transformRow st r) = "Income".
Proof. unfold transformRow. cbn [Type_]. destruct (lt_zero (amtNum r)); auto. Qed.

Lemma filter_two_lengths {A : Type} (p q : A -> bool) (l : list A) :
  (forall a, In a l -> p a = negb (q a)) ->
  (length (List.filter p l) + length (List.filter q l) = length l)%nat.
Proof.
  induction l as [|a l IH]; intros Hpq; [reflexivity|]. cbn [List.filter].
  rewrite (Hpq a) by (left; reflexivity).
  specialize (IH (fun b Hb => Hpq b (or_intror Hb))).
  destruct (q a); cbn [negb length]; lia.
Qed.

Lemma filter_none {A : Type} (p : A -> bool) (l : list A) :
  (forall a, In a l -> p a = false) -> List.filter p l = [].
Proof.
  induction l as [|a l IH]; intros Hp; [reflexivity|]. cbn [List.filter].
  rewrite (Hp a) by (left; reflexivity). apply IH. intros b Hb. apply Hp. right. exact Hb.
Qed.

(** X3. The type filter splits the transformed rows: the rows shown under
    Expense all have that type, those under Income all have that one, every
    transformed row is in exactly one of the two lists, and any other filter
    than these two and Both shows no row at all. *)
Theorem type_filter_partitions (st : State) :
  Forall (fun row => Type_ row = "Expense") (transformedFiltered (withTypeFilter "Expense" st))
  /\ Forall (fun row => Type_ row = "Income") (transformedFiltered (withTypeFilter "Income" st))
  /\ (length (transformedFiltered (withTypeFilter "Expense" st))
      + length (transformedFiltered (withTypeFilter "Income" st))
      = length (transformedFiltered (withTypeFilter "Both" st)))%nat
  /\ (forall f, f <> "Both" -> f <> "Expense" -> f <> "Income" ->
        transformedFiltered (withTypeFilter f st) = []).
Proof.
  assert (Hother : forall f, f <> "Both" ->
        transformedFiltered (withTypeFilter f st)
        = List.filter (fun row => String.eqb (Type_ row) f) (transformedAll st)).
  { intros f Hf. unfold transformedFiltered. cbn [typeFilter withTypeFilter].
    apply String.eqb_neq in Hf. rewrite Hf. reflexivity. }
  split.
  { rewrite Hother by discriminate. apply List.Forall_forall. intros row Hrow.
    apply filter_In in Hrow. apply String.eqb_eq. exact (proj2 Hrow). }
  split.
  { rewrite Hother by discriminate. apply List.Forall_forall. intros row Hrow.
    apply filter_In in Hrow. apply String.eqb_eq. exact (proj2 Hrow). }
  split.
  { rewrite !Hother by discriminate.
    change (transformedFiltered (withTypeFilter "Both" st)) with (transformedAll st).
    apply filter_two_lengths.
    intros row Hrow. unfold transformedAll in Hrow. apply in_map_iff in Hrow.
    destruct Hrow as (r & <- & _).
    destruct (row_type st r) as [-> | ->]; reflexivity. }
  intros f Hb He Hi. rewrite (Hother f Hb). apply filter_none.
  intros row Hrow. unfold transformedAll in Hrow. apply in_map_iff in Hrow.
  destruct Hrow as (r & <- & _). apply String.eqb_neq.
  destruct (row_type st r) as [-> | ->]; congruence.
Qed.
End TypeFilter.

Lemma type_filter_partitions_witness :
  transformedFiltered (js := host []) (withTypeFilter "expense" (onFileSelected plainFile initial))
  = []
  /\ length (transformedFiltered (js := host [])
               (withTypeFilter "Expense" (onFileSelected plainFile initial))) = 1%nat.
Proof.
  destruct (type_filter_partitions (js := host []) (onFileSelected plainFile initial))
    as (_ & _ & _ & Hnone).
  split; [apply Hnone; discriminate|]. vm_compute. reflexivity.
Defined.

(** ** The heuristic stays inside the taxonomy *)

Lemma firstMatch_range (rules : list (list string * string)) (s : string) :
  In (firstMatch rules s) ("Other" :: List.map snd rules).
Proof.
  induction rules as [|[ks cat] rules IH]; cbn [firstMatch List.map snd].
  - left. reflexivity.
  - destruct (has_any s ks); [right; left; reflexivity|].
    destruct IH as [IH|IH]; [left; exact IH|right; right; exact IH].
Qed.

Lemma heuristicCategory_in_taxonomy (name : string) :
  In (heuristicCategory name) categorySet.
Proof.
  rewrite heuristicCategory_firstMatch.
  pose proof (firstMatch_range heuristicRules (toLowerCase name)) as Hrange.
  assert (Hall : forall c, In c ("Other" :: List.map snd heuristicRules) -> In c categorySet).
  { intros c Hc. cbn in Hc. unfold categorySet.
    repeat (destruct Hc as [<- |Hc]; [cbn; tauto|]). destruct Hc. }
  apply Hall, Hrange.
Qed.

Section Category.
Context {js : Builtins}.

(** X4. The category of a transformed row is never falsy: it is the truthy
    value that reading the category map at the description yields, be it an
    own entry or a property found along the prototype chain, or else the
    heuristic category, which is one of the taxonomy.  So on a map with the
    default prototype and no own entry for the description, a description
    that names a property of [Object.prototype] gets that built-in as its
    category, and every other description gets the heuristic category. *)
Theorem category_is_always_set (st : State) (r : RawRow) :
  let name := column_or r "Description" EmptyString in
  let category := Category (transformRow st r) in
  truthy category = true
  /\ In (heuristicCategory name) categorySet
  /\ ((exists v, get_property (categoryMap st) name = Some v /\ truthy v = true /\ category = v)
      \/ ((forall v, get_property (categoryMap st) name = Some v -> truthy v = false)
          /\ category = JStr (heuristicCategory name)))
  /\ (categoryMap st !! name = None -> prototype (categoryMap st) = ObjectPrototype ->
      category
      = if String.eqb name protoKey then JBuiltin "Object.prototype"
        else if existsb (String.eqb name) objectPrototypeMembers
             then JBuiltin ("Object.prototype." +:+ name)
             else JStr (heuristicCategory name)).
Proof.
  cbv zeta. unfold transformRow. cbn [Category]. unfold categoryOf.
  pose proof (heuristicCategory_in_taxonomy (column_or r "Description" EmptyString)) as Hin.
  assert (Hne : truthy (JStr (heuristicCategory (column_or r "Description" EmptyString))) = true).
  { cbn [truthy]. revert Hin. generalize (heuristicCategory (column_or r "Description" EmptyString)).
    intros c Hc. unfold categorySet in Hc. cbn [In] in Hc.
    repeat (destruct Hc as [<- |Hc]; [reflexivity|]). destruct Hc. }
  split; [|split; [exact Hin|split]].
  - destruct (get_property (categoryMap st) (column_or r "Description" EmptyString)) as [v|];
      [|exact Hne].
    destruct (truthy v) eqn:Hv; [exact Hv|exact Hne].
  - destruct (get_property (categoryMap st) (column_or r "Description" EmptyString)) as [v|].
    + destruct (truthy v) eqn:Hv.
      * left. exists v. auto.
      * right. split; [intros v' [= <-]; exact Hv|reflexivity].
    + right. split; [discriminate|reflexivity].
  - intros Hown Hproto. unfold get_property.
    unfold lookup, object_lookup in Hown. rewrite Hown, Hproto. unfold Object_prototype_get.
    destruct (String.eqb (column_or r "Description" EmptyString) protoKey); [reflexivity|].
    destruct (existsb (String.eqb (column_or r "Description" EmptyString))
                      objectPrototypeMembers); reflexivity.
Qed.
End Category.

Lemma category_is_always_set_witness :
  Category (transformRow (js := host []) initial {[ "Description" := "constructor" ]})
  = JBuiltin "Object.prototype.constructor"
  /\ Category (transformRow (js := host []) initial {[ "Description" := "CONAD" ]})
     = JStr "Groceries".
Proof.
  split.
  - destruct (category_is_always_set (js := host []) initial {[ "Description" := "constructor" ]})
      as (_ & _ & _ & Hdefault).
    exact (Hdefault eq_refl eq_refl).
  - destruct (category_is_always_set (js := host []) initial {[ "Description" := "CONAD" ]})
      as (_ & _ & _ & Hdefault).
    exact (Hdefault eq_refl eq_refl).
Defined.

(** ** Letter case *)

Lemma lower_upper_ascii (c : ascii) :
  is_ascii c = true -> lower_char (upper_char c) = lower_char c.
Proof. destruct c as [[] [] [] [] [] [] [] []]; intros Hc; first [reflexivity | discriminate Hc]. Qed.

Lemma lower_lower_char (c : ascii) : lower_char (lower_char c) = lower_char c.
Proof. destruct c as [[] [] [] [] [] [] [] []]; vm_compute; reflexivity. Qed.

Lemma map_chars_map_chars (f g : ascii -> ascii) (s : string) :
  map_chars f (map_chars g s) = map_chars (fun c => f (g c)) s.
Proof. induction s as [|a s IH]; cbn [map_chars]; [reflexivity|]. rewrite IH. reflexivity. Qed.

Lemma map_chars_ext (f g : ascii -> ascii) (s : string) :
  (forall c, f c = g c) -> map_chars f s = map_chars g s.
Proof.
  intros Hfg. induction s as [|a s IH]; cbn [map_chars]; [reflexivity|].
  rewrite Hfg, IH. reflexivity.
Qed.

Lemma map_chars_ext_on (p : ascii -> bool) (f g : ascii -> ascii) (s : string) :
  (forall c, p c = true -> f c = g c) ->
  forall_chars p s = true -> map_chars f s = map_chars g s.
Proof.
  intros Hfg. induction s as [|a s IH]; [reflexivity|]. cbn [forall_chars map_chars].
  intros Hall. apply andb_true_iff in Hall. destruct Hall as [Ha Hs].
  rewrite (Hfg a Ha), (IH Hs). reflexivity.
Qed.

(** X5. On a name made of ASCII characters the heuristic does not depend
    on the case of the letters: the name, its upper-case form and its
    lower-case form get the same category.  (Outside ASCII the case
    conversions of the language are not those of this development, and the
    upper-case form of a name can match a keyword that the name does not.) *)
Theorem heuristic_ignores_case (name : string) :
  forall_chars is_ascii name = true ->
  heuristicCategory (toUpperCase name) = heuristicCategory name
  /\ heuristicCategory (toLowerCase name) = heuristicCategory name.
Proof.
  intros Hascii. rewrite !heuristicCategory_firstMatch. unfold toUpperCase, toLowerCase.
  rewrite !map_chars_map_chars. split; f_equal.
  - apply (map_chars_ext_on is_ascii); [|exact Hascii].
    intros c Hc. apply lower_upper_ascii. exact Hc.
  - apply map_chars_ext. intros c. apply lower_lower_char.
Qed.

Lemma heuristic_ignores_case_witness :
  heuristicCategory (toUpperCase "Conad Superstore") = "Groceries"
  /\ heuristicCategory "Conad Superstore" = "Groceries".
Proof.
  destruct (heuristic_ignores_case "Conad Superstore" eq_refl) as [Hupper _].
  split; [rewrite Hupper|]; vm_compute; reflexivity.
Defined.

(** ** The encoding of a field is one to one *)

Lemma replace_dquote_inj (s t : string) :
  replace_char dquote doubled s = replace_char dquote doubled t -> s = t.
Proof.
  revert t. induction s as [|a s IH]; intros [|b t]; cbn [replace_char].
  - reflexivity.
  - destruct (Ascii.eqb b dquote); discriminate.
  - destruct (Ascii.eqb a dquote); discriminate.
  - destruct (Ascii.eqb a dquote) eqn:Ha, (Ascii.eqb b dquote) eqn:Hb.
    + apply Ascii.eqb_eq in Ha, Hb. subst a b.
      change (doubled +:+ ?x) with (String dquote (String dquote x)).
      intros [= Heq]. rewrite (IH t Heq). reflexivity.
    + change (doubled +:+ ?x) with (String dquote (String dquote x)).
      intros [= Heq _]. subst b. discriminate.
    + change (doubled +:+ ?x) with (String dquote (String dquote x)).
      intros [= Heq _]. subst a. discriminate.
    + intros [= -> Heq]. rewrite (IH t Heq). reflexivity.
Qed.

Lemma app_last_inj (s t : string) (c : ascii) :
  s +:+ String c EmptyString = t +:+ String c EmptyString -> s = t.
Proof.
  revert t. induction s as [|a s IH]; intros [|b t].
  - reflexivity.
  - change (String c EmptyString = String b (t +:+ String c EmptyString) -> EmptyString = String b t).
    intros [= _ Heq]. destruct t; discriminate.
  - change (String a (s +:+ String c EmptyString) = String c EmptyString -> String a s = EmptyString).
    intros [= _ Heq]. destruct s; discriminate.
  - change (String a (s +:+ String c EmptyString) = String b (t +:+ String c EmptyString)
            -> String a s = String b t).
    intros [= -> Heq]. rewrite (IH t Heq). reflexivity.
Qed.

Lemma quotedForm_inj (s t : string) : quotedForm s = quotedForm t -> s = t.
Proof.
  unfold quotedForm.
  change (String dquote ?x +:+ ?y) with (String dquote (x +:+ y)).
  intros [= Heq]. apply app_last_inj in Heq. apply replace_dquote_inj. exact Heq.
Qed.

Lemma quotedForm_needs_quoting (s : string) : needs_quoting (quotedForm s) = true.
Proof. reflexivity. Qed.

Lemma csvEscapeString_inj (s t : string) :
  csvEscapeString s = csvEscapeString t -> s = t.
Proof.
  unfold csvEscapeString.
  destruct (needs_quoting s) eqn:Hs, (needs_quoting t) eqn:Ht.
  - apply quotedForm_inj.
  - intros Heq. rewrite <- Heq, quotedForm_needs_quoting in Ht. discriminate.
  - intros Heq. rewrite Heq, quotedForm_needs_quoting in Hs. discriminate.
  - exact (fun Heq => Heq).
Qed.

Section Escape.
Context {js : Builtins}.

(** X6. Two different strings are never written as the same cell. *)
Theorem csvEscape_distinguishes (s t : string) :
  s <> t -> csvEscape (JStr s) <> csvEscape (JStr t).
Proof.
  intros Hne Heq. apply Hne. unfold csvEscape in Heq. cbn [to_String] in Heq.
  apply csvEscapeString_inj. exact Heq.
Qed.
End Escape.

Lemma csvEscape_distinguishes_witness :
  csvEscape (js := host []) (JStr "a,b") = quoted "a,b"
  /\ csvEscape (js := host []) (JStr "a,b") <> csvEscape (js := host []) (JStr (quoted "a,b")).
Proof.
  split; [reflexivity|].
  apply (@csvEscape_distinguishes (host []) "a,b" (quoted "a,b")). discriminate.
Defined.

(** ** Dates *)

Lemma digit_not_space (a : ascii) : is_digit a = true -> is_space a = false.
Proof.
  intros Ha. destruct (digit_first_facts a EmptyString Ha) as (Hl & _).
  cbn [ltrim] in Hl. destruct (is_space a); [discriminate|reflexivity].
Qed.

(** After a prefix that ends with a character that is no white space,
    [rtrim] leaves that prefix in place. *)
Lemma rtrim_keeps_prefix (x : string) (c : ascii) (rest : string) :
  is_space c = false ->
  exists rest', rtrim ((x +:+ String c EmptyString) +:+ rest) = (x +:+ String c EmptyString) +:+ rest'.
Proof.
  intros Hc. induction x as [|a x IH].
  - change ((EmptyString +:+ String c EmptyString) +:+ rest) with (String c rest).
    destruct (rtrim_keeps_head c rest Hc) as [t Ht]. exists t. rewrite Ht. reflexivity.
  - change ((String a x +:+ String c EmptyString) +:+ rest)
      with (String a ((x +:+ String c EmptyString) +:+ rest)).
    destruct IH as [rest' IH]. cbn [rtrim]. rewrite IH. exists rest'.
    destruct x; reflexivity.
Qed.

Lemma take_app_length (x rest : string) : take (String.length x) (x +:+ rest) = x.
Proof.
  induction x as [|a x IH]; [destruct rest; reflexivity|].
  change (String a x +:+ rest) with (String a (x +:+ rest)). cbn [String.length take].
  rewrite IH. reflexivity.
Qed.

(** A canonical date: its shape, and what trimming and slicing do to it. *)
Lemma iso_date_shape (d : string) :
  is_iso_date d = true ->
  exists (x : string) (c : ascii),
    d = x +:+ String c EmptyString /\ is_space c = false
    /\ String.length d = 10%nat
    /\ exists a u, d = String a u /\ is_space a = false.
Proof.
  unfold is_iso_date.
  destruct d as [|c1 [|c2 [|c3 [|c4 [|c5 [|c6 [|c7 [|c8 [|c9 [|c10 [|c11 d]]]]]]]]]]];
    cbn [list_ascii_of_string]; try discriminate.
  cbn [forallb]. rewrite !andb_true_iff.
  intros [[(H1 & H2 & H3 & H4 & H6 & H7 & H9 & H10 & _) _] _].
  exists (String c1 (String c2 (String c3 (String c4 (String c5 (String c6
            (String c7 (String c8 (String c9 EmptyString))))))))), c10.
  split; [reflexivity|]. split; [apply digit_not_space, H10|].
  split; [reflexivity|]. exists c1, (String c2 (String c3 (String c4 (String c5 (String c6
            (String c7 (String c8 (String c9 (String c10 EmptyString))))))))).
  split; [reflexivity|apply digit_not_space, H1].
Qed.

Lemma iso_date_prefix (d rest : string) :
  is_iso_date d = true -> take 10 (trim (d +:+ rest)) = d /\ nonempty (d +:+ rest) = true.
Proof.
  intros Hd. destruct (iso_date_shape d Hd) as (x & c & Hx & Hc & Hlen & a & u & Hau & Ha).
  split.
  - unfold trim.
    assert (Hl : ltrim (d +:+ rest) = d +:+ rest).
    { rewrite Hau. change (String a u +:+ rest) with (String a (u +:+ rest)).
      cbn [ltrim]. rewrite Ha. reflexivity. }
    rewrite Hl. rewrite Hx at 1.
    destruct (rtrim_keeps_prefix x c rest Hc) as [rest' ->]. rewrite <- Hx, <- Hlen.
    apply take_app_length.
  - rewrite Hau. reflexivity.
Qed.

Section Dates.
Context {js : Builtins}.

(** X7. [toISODate] on a text that starts with a canonical date returns that
    date, whatever follows it and whatever the host's [Date] would make of the
    text; on a canonical date it changes nothing; and its result is always
    empty, a canonical date, or the first ten characters of the host's ISO
    rendering. *)
Theorem toISODate_canonical :
  (forall d rest, is_iso_date d = true -> toISODate (d +:+ rest) = d)
  /\ (forall s, is_iso_date (toISODate s) = true -> toISODate (toISODate s) = toISODate s)
  /\ (forall s,
         toISODate s = EmptyString
         \/ is_iso_date (toISODate s) = true
         \/ exists iso, Date_toISOString s = Some iso /\ toISODate s = take 10 iso).
Proof.
  assert (Hfast : forall d rest, is_iso_date d = true -> toISODate (d +:+ rest) = d).
  { intros d rest Hd. destruct (iso_date_prefix d rest Hd) as [Htake Hne].
    unfold toISODate. rewrite Hne, Htake, Hd. reflexivity. }
  split; [exact Hfast|]. split.
  - intros s Hs. rewrite <- (Hfast (toISODate s) EmptyString Hs) at 2.
    f_equal. clear. induction (toISODate s) as [|a t IH]; [reflexivity|].
    change (String a t +:+ EmptyString) with (String a (t +:+ EmptyString)).
    rewrite <- IH. reflexivity.
  - intros s. unfold toISODate. destruct (nonempty s); [|left; reflexivity].
    destruct (is_iso_date (take 10 (trim s))) eqn:Hd; [right; left; exact Hd|].
    destruct (Date_toISOString s) as [iso|]; [|left; reflexivity].
    right. right. exists iso. split; reflexivity.
Qed.
End Dates.

Lemma toISODate_canonical_witness :
  toISODate (js := host []) "2025-08-01 23:59:00" = "2025-08-01"
  /\ toISODate (js := host []) (toISODate (js := host []) "2025-08-01 23:59:00")
     = toISODate (js := host []) "2025-08-01 23:59:00".
Proof.
  destruct (@toISODate_canonical (host [])) as (Hfast & Hidem & _).
  split.
  - apply (Hfast "2025-08-01" " 23:59:00"). reflexivity.
  - apply Hidem. vm_compute. reflexivity.
Defined.

(** ** The records of the fallback parser *)

Lemma record_fold_lookup (cols : list string) (headers : list string) (h : string) :
  forall (i : nat) (acc : RawRow),
    fold_left (fun (rec : RawRow) (ih : nat * string) =>
                 assign_cell rec ih.2 (trim (cell cols ih.1)))
              (combine (seq i (length headers)) headers) acc !! h
    = if String.eqb h protoKey then acc !! h
      else match column_index_from i headers h with
           | Some j => Some (trim (cell cols j))
           | None => acc !! h
           end.
Proof.
  induction headers as [|x xs IH]; intros i acc.
  - cbn. destruct (String.eqb h protoKey); reflexivity.
  - cbn [length seq combine fold_left column_index_from fst snd]. rewrite IH.
    unfold assign_cell. destruct (String.eqb h protoKey) eqn:Hh.
    + destruct (String.eqb x protoKey) eqn:Hx; [reflexivity|].
      apply String.eqb_eq in Hh. apply String.eqb_neq in Hx. subst h.
      apply lookup_insert_ne. exact Hx.
    + destruct (column_index_from (S i) xs h) as [j|]; [reflexivity|].
      destruct (String.eqb x h) eqn:Hx.
      * apply String.eqb_eq in Hx. subst x. rewrite Hh. apply lookup_insert_eq.
      * apply String.eqb_neq in Hx.
        destruct (String.eqb x protoKey); [reflexivity|]. apply lookup_insert_ne. exact Hx.
Qed.

Lemma record_of_lookup (headers cols : list string) (h : string) :
  record_of headers cols !! h
  = if String.eqb h protoKey then None
    else (fun j => trim (cell cols j)) <$> column_index headers h.
Proof.
  unfold record_of, indexed, column_index. rewrite record_fold_lookup.
  destruct (String.eqb h protoKey); [apply lookup_empty|].
  destruct (column_index_from 0 headers h); [reflexivity|apply lookup_empty].
Qed.

Lemma column_index_from_In (headers : list string) (h : string) :
  forall i, is_Some (column_index_from i headers h) <-> In h headers.
Proof.
  induction headers as [|x xs IH]; intros i; cbn [column_index_from In].
  - split; [intros [j Hj]; discriminate|intros []].
  - specialize (IH (S i)). destruct (column_index_from (S i) xs h) as [j|].
    + split; [intros _; right; apply IH; eauto|eauto].
    + destruct (String.eqb x h) eqn:Hx.
      * apply String.eqb_eq in Hx. split; [intros _; left; exact Hx|eauto].
      * apply String.eqb_neq in Hx. split; [intros [j Hj]; discriminate|].
        intros [Heq|Hin]; [contradiction|]. apply IH in Hin. destruct Hin as [j Hj]. discriminate.
Qed.

Lemma cell_beyond (cols : list string) (j : nat) :
  (length cols <= j)%nat -> cell cols j = EmptyString.
Proof. intros Hj. unfold cell. apply nth_overflow. exact Hj. Qed.

(** X8. Every record of [fallbackParse] follows the header line.  A header
    name other than [__proto__] maps to the trimmed cell at the last position
    of that name, and to the empty string when the line is too short to have
    that cell; the name [__proto__] and the names that the header does not
    hold are no keys of the record.  So the keys of every record are the
    header names other than [__proto__], and its values are trimmed. *)
Theorem fallback_records_follow_header (text : string) :
  (exists lines,
      data (fallbackParse text)
      = List.map (fun line => record_of (headerNames text) (split comma line)) lines
      /\ Forall (fun line => nonempty line = true) lines
      /\ Forall (fun line => exists_char (fun a => Ascii.eqb a LF) line = false) lines)
  /\ (forall cols h,
         record_of (headerNames text) cols !! h
         = if String.eqb h protoKey then None
           else (fun j => trim (cell cols j)) <$> column_index (headerNames text) h)
  /\ (forall cols h j,
         h <> protoKey ->
         column_index (headerNames text) h = Some j -> (length cols <= j)%nat ->
         record_of (headerNames text) cols !! h = Some EmptyString)
  /\ Forall (fun r : RawRow =>
               (forall h, is_Some (r !! h) <-> In h (headerNames text) /\ h <> protoKey)
               /\ (forall h v, r !! h = Some v -> trim v = v))
            (data (fallbackParse text)).
Proof.
  assert (Hrec : forall cols h,
             (is_Some (record_of (headerNames text) cols !! h)
              <-> In h (headerNames text) /\ h <> protoKey)
             /\ (forall v, record_of (headerNames text) cols !! h = Some v -> trim v = v)).
  { intros cols h. rewrite record_of_lookup.
    rewrite <- (column_index_from_In (headerNames text) h 0). unfold column_index.
    destruct (String.eqb h protoKey) eqn:Hh.
    - apply String.eqb_eq in Hh. split; [|discriminate].
      split; [intros [v Hv]; discriminate|intros [_ Hne]; contradiction].
    - apply String.eqb_neq in Hh.
      destruct (column_index_from 0 (headerNames text) h) as [j|];
        cbn [fmap option_fmap option_map].
      + split; [split; eauto|]. intros v [= <-]. apply trim_idem.
      + split; [|discriminate].
        split; [intros [v Hv]; discriminate|intros [[v Hv] _]; discriminate]. }
  unfold headerNames, fallbackParse in *.
  pose proof (split_lines_pieces text) as Hlf.
  assert (Hne : Forall (fun line => nonempty line = true)
                       (List.filter nonempty (split_lines text))).
  { apply List.Forall_forall. intros l Hl. apply filter_In in Hl. exact (proj2 Hl). }
  assert (Hlf' : Forall (fun l => exists_char (fun a => Ascii.eqb a LF) l = false)
                        (List.filter nonempty (split_lines text))).
  { rewrite List.Forall_forall in Hlf |- *. intros l Hl. apply filter_In in Hl.
    apply Hlf. exact (proj1 Hl). }
  destruct (List.filter nonempty (split_lines text)) as [|header lines]; cbn [data].
  - split; [exists []; repeat split; constructor|].
    split; [intros cols h; apply record_of_lookup|].
    split; [intros cols h j _ Hj; discriminate|constructor].
  - apply Forall_cons_1 in Hne, Hlf'.
    split; [exists lines; split; [reflexivity|split; [exact (proj2 Hne)|exact (proj2 Hlf')]]|].
    split; [intros cols h; apply record_of_lookup|].
    split.
    { intros cols h j Hh Hj Hlen. rewrite record_of_lookup, Hj.
      apply String.eqb_neq in Hh. rewrite Hh. cbn.
      rewrite cell_beyond by exact Hlen. reflexivity. }
    apply List.Forall_forall. intros r Hr. apply in_map_iff in Hr.
    destruct Hr as (line & <- & _). split.
    + intros h. apply Hrec.
    + intros h v. apply Hrec.
Qed.

Lemma fallback_records_follow_header_witness :
  let text := "a, b ,a,__proto__" +:+ newline +:+ "1,2,3,4" in
  headerNames text = ["a"; "b"; "a"; protoKey]
  /\ List.map (fun r : RawRow => (r !! "a", r !! "b", r !! "c", r !! protoKey))
              (data (fallbackParse text))
     = [ (Some "3", Some "2", None, None) ]
  /\ record_of (headerNames text) ["1"; "2"] !! "a" = Some EmptyString.
Proof.
  cbv zeta. split; [vm_compute; reflexivity|].
  destruct (fallback_records_follow_header ("a, b ,a,__proto__" +:+ newline +:+ "1,2,3,4"))
    as (_ & Hlookup & Hshort & _).
  split.
  - assert (Hdata : data (fallbackParse ("a, b ,a,__proto__" +:+ newline +:+ "1,2,3,4"))
                    = [record_of (headerNames ("a, b ,a,__proto__" +:+ newline +:+ "1,2,3,4"))
                                 ["1"; "2"; "3"; "4"]])
      by (vm_compute; reflexivity).
    rewrite Hdata. cbn [List.map]. rewrite !Hlookup. vm_compute. reflexivity.
  - apply (Hshort ["1"; "2"] "a" 2%nat); [discriminate|vm_compute; reflexivity|cbn; lia].
Defined.

(** ** Line endings *)

Lemma split_lines_crlf (text : string) :
  exists_char (fun a => Ascii.eqb a CR) text = false ->
  split_lines (crlf text) = split_lines text.
Proof.
  unfold crlf. induction text as [|a s IH]; cbn [exists_char replace_char split_lines];
    [reflexivity|].
  rewrite orb_false_iff. intros [Ha Hs]. specialize (IH Hs).
  destruct (Ascii.eqb a LF) eqn:Hlf.
  - change (String CR (String LF EmptyString) +:+ ?x) with (String CR (String LF x)).
    cbn [split_lines starts_with]. change (Ascii.eqb CR LF) with false.
    change (Ascii.eqb CR CR) with true. change (Ascii.eqb LF LF) with true.
    cbn [andb]. rewrite IH. reflexivity.
  - cbn [split_lines]. rewrite Hlf, Ha. cbn [andb]. rewrite IH. reflexivity.
Qed.

(** X9. A text without carriage returns is parsed in the same way once its
    line ends are turned into carriage return and line feed. *)
Theorem fallbackParse_crlf (text : string) :
  exists_char (fun a => Ascii.eqb a CR) text = false ->
  fallbackParse (crlf text) = fallbackParse text.
Proof.
  intros Hcr. unfold fallbackParse. rewrite (split_lines_crlf text Hcr). reflexivity.
Qed.

Lemma fallbackParse_crlf_witness :
  fallbackParse (crlf (standardHeader +:+ newline +:+ readmeLine))
  = fallbackParse (standardHeader +:+ newline +:+ readmeLine).
Proof.
  apply fallbackParse_crlf. vm_compute. reflexivity.
Defined.















Section ReadBack.
Context {js : Builtins}.


End ReadBack.


(** ** The brace-delimited part of a reply *)

Lemma upto_last_spec (c : ascii) (s m : string) :
  upto_last c s = Some m <->
  exists mid post,
    s = mid +:+ String c post /\ m = mid +:+ String c EmptyString
    /\ exists_char (fun a => Ascii.eqb a c) post = false.
Proof.
  revert m. induction s as [|a s IH]; intros m; cbn [upto_last].
  - split; [discriminate|]. intros (mid & post & Hs & _). destruct mid; discriminate.
  - destruct (upto_last c s) as [t|] eqn:Hup.
    + split.
      * intros [= <-]. destruct (proj1 (IH t) eq_refl) as (mid & post & -> & -> & Hpost).
        exists (String a mid), post. repeat split; [exact Hpost].
      * intros (mid & post & Hs & -> & Hpost). destruct mid as [|b mid].
        -- cbn in Hs. injection Hs as -> ->.
           destruct (proj1 (IH t) eq_refl) as (mid' & post' & Hpost' & _ & _).
           rewrite Hpost', exists_char_app in Hpost. cbn [exists_char] in Hpost.
           rewrite Ascii.eqb_refl, orb_true_r in Hpost. discriminate.
        -- change (String b mid +:+ ?r) with (String b (mid +:+ r)) in *.
           injection Hs as -> ->. f_equal. f_equal.
           assert (Hsome : Some t = Some (mid +:+ String c EmptyString)).
           { apply IH. exists mid, post. auto. }
           injection Hsome as ->. reflexivity.
    + assert (Hnone : exists_char (fun x => Ascii.eqb x c) s = false).
      { destruct (exists_char (fun x => Ascii.eqb x c) s) eqn:Hex; [|reflexivity]. exfalso.
        clear IH. revert Hup Hex. induction s as [|b s IHs]; cbn [upto_last exists_char];
          [discriminate|].
        destruct (upto_last c s); [discriminate|].
        destruct (Ascii.eqb b c); [discriminate|]. cbn [orb]. intros _ Hex. auto. }
      destruct (Ascii.eqb a c) eqn:Ha.
      * apply Ascii.eqb_eq in Ha. subst a. split.
        -- intros [= <-]. exists EmptyString, s. auto.
        -- intros (mid & post & Hs & -> & Hpost). destruct mid as [|b mid].
           ++ reflexivity.
           ++ change (String b mid +:+ ?r) with (String b (mid +:+ r)) in *.
              injection Hs as -> ->. rewrite exists_char_app in Hnone. cbn [exists_char] in Hnone.
              rewrite Ascii.eqb_refl, orb_true_r in Hnone. discriminate.
      * split; [discriminate|]. intros (mid & post & Hs & -> & Hpost). destruct mid as [|b mid].
        -- cbn in Hs. injection Hs as -> _. rewrite Ascii.eqb_refl in Ha. discriminate.
        -- change (String b mid +:+ ?r) with (String b (mid +:+ r)) in *.
           injection Hs as -> ->. rewrite exists_char_app in Hnone. cbn [exists_char] in Hnone.
           rewrite Ascii.eqb_refl, orb_true_r in Hnone. discriminate.
Qed.

(** X11. The part of a reply that the second parse reads goes from the first
    opening brace of the text to its last closing brace, and there is such a
    part exactly when a closing brace follows the first opening brace. *)
Theorem match_braces_first_to_last (s m : string) :
  match_braces s = Some m <->
  exists pre mid post,
    s = pre +:+ String "{" (mid +:+ String "}" post)
    /\ m = String "{" (mid +:+ String "}" EmptyString)
    /\ exists_char (fun a => Ascii.eqb a "{") pre = false
    /\ exists_char (fun a => Ascii.eqb a "}") post = false.
Proof.
  induction s as [|a s IH]; cbn [match_braces].
  - split; [discriminate|]. intros (pre & mid & post & Hs & _). destruct pre; discriminate.
  - destruct (Ascii.eqb a "{") eqn:Ha.
    + apply Ascii.eqb_eq in Ha. subst a. split.
      * destruct (upto_last "}" s) as [t|] eqn:Hup; [|discriminate]. intros [= <-].
        destruct (proj1 (upto_last_spec "}" s t) Hup) as (mid & post & -> & -> & Hpost).
        exists EmptyString, mid, post. auto.
      * intros (pre & mid & post & Hs & -> & Hpre & Hpost). destruct pre as [|b pre].
        -- cbn in Hs. injection Hs as ->.
           assert (Hup : upto_last "}" (mid +:+ String "}" post) = Some (mid +:+ String "}" EmptyString)).
           { apply upto_last_spec. exists mid, post. auto. }
           rewrite Hup. reflexivity.
        -- change (String b pre +:+ ?r) with (String b (pre +:+ r)) in Hs.
           injection Hs as <- _. cbn in Hpre. discriminate.
    + rewrite IH. split.
      * intros (pre & mid & post & -> & -> & Hpre & Hpost).
        exists (String a pre), mid, post. cbn [exists_char]. rewrite Ha. auto.
      * intros (pre & mid & post & Hs & -> & Hpre & Hpost). destruct pre as [|b pre].
        -- cbn in Hs. injection Hs as -> _. discriminate.
        -- change (String b pre +:+ ?r) with (String b (pre +:+ r)) in Hs.
           injection Hs as <- ->. cbn [exists_char] in Hpre. rewrite Ha in Hpre.
           exists pre, mid, post. auto.
Qed.

Lemma match_braces_first_to_last_witness :
  match_braces "Sure: {a}{b} ok" = Some "{a}{b}".
Proof.
  apply (proj2 (match_braces_first_to_last "Sure: {a}{b} ok" "{a}{b}")).
  exists "Sure: ", "a}{b", " ok".
  split; [reflexivity|]. split; [reflexivity|]. split; reflexivity.
Defined.

(** ** The classifier: replies that are not read *)

Lemma last_binding_names (f : string -> json) (group : list string) (k : string) :
  last_binding k (List.map (fun n => (n, f n)) group)
  = if existsb (String.eqb k) group then Some (f k) else None.
Proof.
  induction group as [|n group IH] using rev_ind; [reflexivity|].
  rewrite List.map_app, last_binding_app, existsb_app, IH. cbn [List.map existsb].
  unfold last_binding at 1. cbn [fold_left fst snd]. rewrite orb_false_r, (String.eqb_sym k n).
  destruct (String.eqb n k) eqn:Hk.
  - apply String.eqb_eq in Hk. subst n. rewrite orb_true_r. reflexivity.
  - rewrite orb_false_r. reflexivity.
Qed.

Lemma existsb_eqb_In (k : string) (l : list string) :
  existsb (String.eqb k) l = true <-> In k l.
Proof.
  rewrite existsb_exists. split.
  - intros (x & Hx & Heq). apply String.eqb_eq in Heq. subst x. exact Hx.
  - intros Hk. exists k. split; [exact Hk|apply String.eqb_refl].
Qed.

Lemma taxonomy_nonempty (c : string) : In c categorySet -> nonempty c = true.
Proof.
  unfold categorySet. cbn [In]. intros Hc.
  repeat (destruct Hc as [<- | Hc]; [reflexivity|]). destruct Hc.
Qed.

Section Replies.
Context {js : Builtins}.
Variable net : nat -> Request -> Response.

Lemma heuristicAll_lookup (group : list string) (mapping : object) (k : string) :
  k <> protoKey ->
  heuristicAll group mapping !! k
  = if existsb (String.eqb k) group then Some (JStr (heuristicCategory k)) else mapping !! k.
Proof.
  intros Hne. rewrite heuristicAll_entries, (assign_entries_lookup _ k Hne).
  rewrite (last_binding_names (fun n => JStr (heuristicCategory n))).
  destruct (existsb (String.eqb k) group); reflexivity.
Qed.

(** The assignment of a string leaves the prototype as it is, and writes no
    property [__proto__] where that name reaches the setter. *)
Lemma set_property_string (o : object) (k s : string) :
  prototype (set_property o k (JStr s)) = prototype o
  /\ (setter_reached o = true ->
      setter_reached (set_property o k (JStr s)) = true).
Proof.
  unfold set_property. destruct (String.eqb k protoKey) eqn:Hk; cbn [andb].
  - destruct (setter_reached o) eqn:Hreach; [split; [reflexivity|exact (fun _ => Hreach)]|].
    split; [reflexivity|discriminate].
  - split; [reflexivity|]. intros Hreach. apply String.eqb_neq in Hk.
    pose proof (setter_reached_other o k (JStr s) Hk) as Hsame.
    unfold set_property in Hsame. apply String.eqb_neq in Hk. rewrite Hk in Hsame.
    cbn [andb] in Hsame. rewrite Hsame. exact Hreach.
Qed.

Lemma heuristicAll_prototype (group : list string) :
  forall mapping,
    prototype (heuristicAll group mapping) = prototype mapping
    /\ (setter_reached mapping = true -> heuristicAll group mapping !! protoKey = None).
Proof.
  unfold heuristicAll. induction group as [|n group IH]; intros mapping.
  - split; [reflexivity|]. intros Hreach. unfold setter_reached in Hreach.
    unfold lookup, object_lookup. cbn [fold_left].
    destruct (own mapping !! protoKey); [discriminate|reflexivity].
  - cbn [fold_left].
    destruct (IH (set_property mapping n (JStr (heuristicCategory n)))) as [Hproto Hown].
    destruct (set_property_string mapping n (heuristicCategory n)) as [Hsame Hreach].
    rewrite Hproto, Hsame. split; [reflexivity|]. intros Hr. apply Hown, Hreach, Hr.
Qed.

(** X12. A reply that parses neither as it is nor through a brace-delimited
    part (there is none) does not fail the run: every name of the group other
    than [__proto__] gets its heuristic category, and the rows with such a
    name are exported with it; the keys that are no names of the group and
    the prototype of the mapping are unchanged.  The name [__proto__] gets
    no entry on a mapping where it reaches the setter of [Object.prototype],
    as on the empty mapping: the setter ignores the category. *)
Theorem unreadable_reply_falls_back
        (apiKey model : string) (i : nat) (group : list string)
        (mapping : object) (c : option string) (e0 : exn) :
  net i (request_of apiKey model group) = Content c ->
  JSON_parse (reply_text c) = Throw e0 ->
  match_braces (reply_text c) = None ->
  exists merged,
    classifyGroup net apiKey model i group mapping = Ok merged
    /\ (forall n, In n group -> n <> protoKey ->
                  merged !! n = Some (JStr (heuristicCategory n))
                  /\ categoryOf merged n = JStr (heuristicCategory n))
    /\ (forall k, ~ In k group -> k <> protoKey -> merged !! k = mapping !! k)
    /\ prototype merged = prototype mapping
    /\ (setter_reached mapping = true -> merged !! protoKey = None).
Proof.
  intros Hnet Hparse Hbraces. exists (heuristicAll group mapping).
  split; [unfold classifyGroup, mergeReply; rewrite Hnet, Hparse, Hbraces; reflexivity|].
  split.
  { intros n Hn Hne.
    assert (Hown : heuristicAll group mapping !! n = Some (JStr (heuristicCategory n))).
    { rewrite (heuristicAll_lookup _ _ _ Hne), (proj2 (existsb_eqb_In n group) Hn). reflexivity. }
    split; [exact Hown|]. unfold categoryOf, get_property.
    unfold lookup, object_lookup in Hown. rewrite Hown. cbn [truthy].
    rewrite (taxonomy_nonempty _ (heuristicCategory_in_taxonomy n)). reflexivity. }
  split.
  { intros k Hk Hne. rewrite (heuristicAll_lookup _ _ _ Hne).
    destruct (existsb (String.eqb k) group) eqn:Hex; [|reflexivity].
    apply existsb_eqb_In in Hex. contradiction. }
  apply heuristicAll_prototype.
Qed.

(** X13. A response without content, or with a content of white space only, is
    read as the empty object: on a host whose [JSON.parse] reads that text as
    an object without members, the turn succeeds and leaves the mapping as it
    was, so the names of the group get no entry. *)
Theorem empty_reply_adds_nothing
        (apiKey model : string) (i : nat) (group : list string)
        (mapping : object) (c : option string) :
  JSON_parse "{}" = Ok (JObj []) ->
  net i (request_of apiKey model group) = Content c ->
  (c = None \/ exists t, c = Some t /\ trim t = EmptyString) ->
  reply_text c = "{}"
  /\ classifyGroup net apiKey model i group mapping = Ok mapping.
Proof.
  intros Hhost Hnet Hc.
  assert (Htext : reply_text c = "{}").
  { destruct Hc as [-> | (t & -> & Ht)]; [reflexivity|]. cbn [reply_text]. rewrite Ht. reflexivity. }
  split; [exact Htext|].
  unfold classifyGroup, mergeReply. rewrite Hnet, Htext, Hhost. reflexivity.
Qed.

(** ** The classifier: the requests of a run *)

(** The groups sent are the first ones of the run, in order; all of them
    when the run succeeds, and at least one when it fails. *)
Lemma classifyLoop_sent (apiKey model : string) (groups : list (list string)) :
  forall i mapping,
    exists k,
      (classifyLoop net apiKey model i groups mapping).1 = firstn k groups
      /\ (k <= length groups)%nat
      /\ (forall final, (classifyLoop net apiKey model i groups mapping).2 = Ok final ->
                        k = length groups)
      /\ (groups <> [] -> (1 <= k)%nat).
Proof.
  induction groups as [|group rest IH]; intros i mapping.
  - exists 0%nat. cbn. repeat split; [lia|congruence].
  - cbn [classifyLoop].
    destruct (classifyGroup net apiKey model i group mapping) as [merged|e].
    + destruct (IH (S i) merged) as (k & Hsent & Hle & Hok & _).
      destruct (classifyLoop net apiKey model (S i) rest merged) as [sent r].
      cbn [fst snd] in *. exists (S k). cbn [firstn length]. rewrite Hsent.
      repeat split; [lia| |lia].
      intros final Hr. rewrite (Hok final Hr). reflexivity.
    + exists 1%nat. cbn [fst snd firstn length]. repeat split; [lia|discriminate|lia].
Qed.

Lemma chunks_nonempty (names : list string) : names <> [] -> chunks names <> [].
Proof.
  intros Hne Hnil. pose proof (concat_chunks names) as Hcat.
  rewrite Hnil in Hcat. cbn in Hcat. congruence.
Qed.

End Replies.

Lemma unreadable_reply_falls_back_witness :
  exists merged,
    classifyGroup (js := host []) (steadyNet (Some "Sorry, I cannot help."))
                  "sk-test" "gpt-4o-mini" 0 ["CONAD"; protoKey] ∅ = Ok merged
    /\ merged !! "CONAD" = Some (JStr "Groceries")
    /\ merged !! protoKey = None.
Proof.
  assert (Hparse : JSON_parse (Builtins := host []) (reply_text (Some "Sorry, I cannot help."))
                   = Throw (Exn "SyntaxError" "Unexpected token")) by (vm_compute; reflexivity).
  assert (Hbraces : match_braces (reply_text (Some "Sorry, I cannot help.")) = None)
    by (vm_compute; reflexivity).
  destruct (@unreadable_reply_falls_back (host []) (steadyNet (Some "Sorry, I cannot help."))
              "sk-test" "gpt-4o-mini" 0%nat ["CONAD"; protoKey] ∅
              (Some "Sorry, I cannot help.") (Exn "SyntaxError" "Unexpected token")
              eq_refl Hparse Hbraces) as (merged & Hrun & Hin & _ & _ & Hproto).
  exists merged. split; [exact Hrun|]. split.
  - destruct (Hin "CONAD") as [Hown _]; [left; reflexivity|discriminate|].
    rewrite Hown. vm_compute. reflexivity.
  - apply Hproto. reflexivity.
Defined.

Lemma empty_reply_adds_nothing_witness :
  classifyGroup (js := bareHost) (steadyNet (Some "  ")) "sk-test" "gpt-4o-mini" 0 ["CONAD"]
                {[ "x" := JStr "Other" ]}
  = Ok {[ "x" := JStr "Other" ]}.
Proof.
  assert (Hhost : JSON_parse (Builtins := bareHost) "{}" = Ok (JObj []))
    by (vm_compute; reflexivity).
  apply (@empty_reply_adds_nothing bareHost (steadyNet (Some "  ")) "sk-test" "gpt-4o-mini"
           0%nat ["CONAD"] {[ "x" := JStr "Other" ]} (Some "  ") Hhost eq_refl).
  right. exists "  ". split; reflexivity.
Defined.

Section Runs.
Context {js : Builtins}.
Variable net : nat -> Request -> Response.

(** X14. [handleClassify] touches the status, the errors and the category map
    only. It ends in one of two ways: the run succeeded, the status says so,
    the errors are as before and the category map is the mapping that the run
    returned; or the status is cleared, one message is appended to the errors
    and the category map is as before. *)
Theorem handleClassify_frame (st : State) :
  let out := (handleClassify net st).2 in
  (apiKey out, source out, websiteName out, dateField out, onlyCompleted out, model out,
   typeFilter out, rawRows out)
  = (apiKey st, source st, websiteName st, dateField st, onlyCompleted st, model st,
     typeFilter st, rawRows st)
  /\ filteredRows out = filteredRows st
  /\ uniqueNames out = uniqueNames st
  /\ ((status out = "Classification complete." /\ errors out = errors st
       /\ (classifyWithOpenAI net (uniqueNames st) (apiKey st) (model st)).2
          = Ok (categoryMap out))
      \/ (status out = EmptyString /\ categoryMap out = categoryMap st
          /\ exists e, errors out = errors st ++ [surfaced e])).
Proof.
  cbv zeta. unfold handleClassify.
  destruct (nonempty (apiKey st)) eqn:Hkey.
  - destruct (classifyWithOpenAI net (uniqueNames st) (apiKey st) (model st))
      as [sent [map|e]] eqn:Hrun; cbn [snd].
    + repeat split. left. repeat split.
    + repeat split. right. repeat split. exists e. reflexivity.
  - cbn [snd]. repeat split. right. repeat split. exists apiKeyMissing. reflexivity.
Qed.

(** X15. The requests of a run are the first batches of the unique names, in
    order and without a gap; with an API key and at least one name the first
    batch is always sent, and without a key none is. *)
Theorem batches_sent_in_order (st : State) :
  exists k,
    (handleClassify net st).1 = firstn k (chunks (uniqueNames st))
    /\ (k <= length (chunks (uniqueNames st)))%nat
    /\ (nonempty (apiKey st) = true -> uniqueNames st <> [] ->
        exists rest, (handleClassify net st).1 = firstn CHUNK (uniqueNames st) :: rest)
    /\ (nonempty (apiKey st) = false -> k = 0%nat).
Proof.
  unfold handleClassify, classifyWithOpenAI.
  destruct (nonempty (apiKey st)) eqn:Hkey.
  - destruct (classifyLoop_sent net (apiKey st) (model st) (chunks (uniqueNames st)) 0 ∅)
      as (k & Hsent & Hle & _ & Hone).
    exists k.
    assert (Hout : (let (sent, r) := classifyLoop net (apiKey st) (model st) 0
                                       (chunks (uniqueNames st)) ∅ in
                    match r with
                    | Ok map => (sent, setStatus "Classification complete."
                                         (setCategoryMap map (setStatus "Classifying with LLM..." st)))
                    | Throw e => (sent, setErrors (fun x => x ++ [surfaced e])
                                          (setStatus EmptyString
                                             (setStatus "Classifying with LLM..." st)))
                    end).1 = firstn k (chunks (uniqueNames st))).
    { destruct (classifyLoop net (apiKey st) (model st) 0 (chunks (uniqueNames st)) ∅)
        as [sent [map|e]]; exact Hsent. }
    split; [exact Hout|]. split; [exact Hle|]. split; [|discriminate].
    intros _ Hnames. rewrite Hout.
    specialize (Hone (chunks_nonempty _ Hnames)).
    assert (Hfirst : exists tl, chunks (uniqueNames st) = firstn CHUNK (uniqueNames st) :: tl).
    { unfold chunks. destruct (uniqueNames st) as [|n names] eqn:Hn; [congruence|].
      assert (Hpos : (1 <= (length (n :: names) + CHUNK - 1) / CHUNK)%nat).
      { apply Nat.div_le_lower_bound; unfold CHUNK; cbn [length]; lia. }
      destruct ((length (n :: names) + CHUNK - 1) / CHUNK)%nat as [|k']; [lia|].
      cbn [seq List.map]. eexists. reflexivity. }
    destruct Hfirst as (tl & Htl). rewrite Htl.
    destruct k as [|k]; [lia|]. cbn [firstn]. eexists. reflexivity.
  - exists 0%nat. cbn [fst firstn]. split; [reflexivity|]. split; [lia|].
    split; [discriminate|reflexivity].
Qed.

(** X16. A run that succeeds has sent every batch, and the category map of the
    session becomes the mapping that the run built from the empty object: what
    the map held before the run has no part in it. *)
Theorem successful_run_replaces_map (st : State) (sent : list (list string))
        (map : object) :
  classifyWithOpenAI net (uniqueNames st) (apiKey st) (model st) = (sent, Ok map) ->
  sent = chunks (uniqueNames st)
  /\ concat sent = uniqueNames st
  /\ forall old,
       handleClassify net (setCategoryMap old st)
       = (sent, setStatus "Classification complete."
                  (setCategoryMap map (setStatus "Classifying with LLM..." st))).
Proof.
  intros Hrun.
  assert (Hkey : nonempty (apiKey st) = true).
  { unfold classifyWithOpenAI in Hrun. destruct (nonempty (apiKey st)); [reflexivity|discriminate]. }
  assert (Hsent : sent = chunks (uniqueNames st)).
  { unfold classifyWithOpenAI in Hrun. rewrite Hkey in Hrun.
    destruct (classifyLoop_sent net (apiKey st) (model st) (chunks (uniqueNames st)) 0 ∅)
      as (k & Hk & _ & Hall & _).
    rewrite Hrun in Hk, Hall. cbn [fst snd] in Hk, Hall.
    rewrite Hk, (Hall map eq_refl). apply firstn_all. }
  split; [exact Hsent|]. split.
  - rewrite Hsent. apply concat_chunks.
  - intros old. unfold handleClassify.
    change (apiKey (setCategoryMap old st)) with (apiKey st).
    change (model (setCategoryMap old st)) with (model st).
    change (uniqueNames (setCategoryMap old st)) with (uniqueNames st).
    rewrite Hkey, Hrun. reflexivity.
Qed.

(** X17. Without an API key [handleClassify] sends nothing and changes neither
    the category map nor the rows: it clears the status and appends the
    request for a key to the errors. *)
Theorem classify_without_key (st : State) :
  nonempty (apiKey st) = false ->
  (handleClassify net st).1 = []
  /\ errors (handleClassify net st).2
     = errors st ++ ["Please add your LLM API key in Settings."]
  /\ status (handleClassify net st).2 = EmptyString
  /\ categoryMap (handleClassify net st).2 = categoryMap st.
Proof.
  intros Hkey. unfold handleClassify. rewrite Hkey. repeat split.
Qed.

End Runs.

Lemma batches_sent_in_order_witness :
  exists rest,
    (handleClassify (js := shopHost) flakyNet shopSession).1
    = firstn CHUNK (uniqueNames shopSession) :: rest.
Proof.
  destruct (batches_sent_in_order (js := shopHost) flakyNet shopSession)
    as (k & _ & _ & Hfirst & _).
  assert (Hlen : length (uniqueNames shopSession) = 41%nat) by (vm_compute; reflexivity).
  refine (Hfirst eq_refl _). intros Hnil. rewrite Hnil in Hlen. discriminate Hlen.
Defined.

Lemma successful_run_replaces_map_witness :
  let out := handleClassify (js := shopHost) (steadyNet (Some shopReply))
               (setCategoryMap {[ "old" := JStr "Fees" ]} shopSession) in
  out.1 = chunks (uniqueNames shopSession)
  /\ categoryMap out.2 !! "old" = None
  /\ categoryMap out.2 !! "shop 0" = Some (JStr "Groceries").
Proof.
  cbv zeta.
  assert (Hrun : classifyWithOpenAI (js := shopHost) (steadyNet (Some shopReply))
                   (uniqueNames shopSession) (apiKey shopSession) (model shopSession)
                 = (chunks (uniqueNames shopSession), Ok {[ "shop 0" := JStr "Groceries" ]}))
    by (vm_compute; reflexivity).
  destruct (successful_run_replaces_map (js := shopHost) (steadyNet (Some shopReply))
              shopSession _ _ Hrun) as (_ & _ & Hall).
  rewrite (Hall {[ "old" := JStr "Fees" ]}). cbn [fst snd].
  split; [reflexivity|]. split; vm_compute; reflexivity.
Defined.

Lemma classify_without_key_witness :
  (handleClassify (js := host []) flakyNet initial).1 = []
  /\ errors (handleClassify (js := host []) flakyNet initial).2
     = ["Please add your LLM API key in Settings."].
Proof.
  destruct (classify_without_key (js := host []) flakyNet initial eq_refl)
    as (Hsent & Herrors & _).
  split; [exact Hsent|exact Herrors].
Defined.

(** ** Uploading a file *)

Lemma split_lines_hd (text : string) :
  exists ls, split_lines text = hd EmptyString (split_lines text) :: ls.
Proof.
  induction text as [|a s IH]; cbn [split_lines]; [eexists; reflexivity|].
  destruct (Ascii.eqb a LF); [eexists; reflexivity|].
  destruct (Ascii.eqb a CR && starts_with LF s); [exact IH|].
  destruct (split_lines s); cbn [cons_head hd]; eexists; reflexivity.
Qed.

Lemma split_hd (c : ascii) (s : string) : exists w ws, split c s = w :: ws.
Proof.
  destruct s as [|a s]; cbn [split]; [eauto|].
  destruct (Ascii.eqb a c); [eauto|]. destruct (split c s); cbn [cons_head]; eauto.
Qed.

Lemma filter_missing_nil (headers : list string) :
  List.filter (fun h => negb (existsb (String.eqb h) headers)) expectedHeaders = []
  <-> Forall (fun h => In h headers) expectedHeaders.
Proof.
  generalize expectedHeaders as expected. induction expected as [|h expected IH].
  - split; [constructor|reflexivity].
  - cbn [List.filter]. destruct (existsb (String.eqb h) headers) eqn:Hh; cbn [negb].
    + apply existsb_eqb_In in Hh. rewrite IH. split.
      * intros Hall. constructor; assumption.
      * intros Hall. apply Forall_cons_1 in Hall. exact (proj2 Hall).
    + split; [discriminate|]. intros Hall. apply Forall_cons_1 in Hall.
      destruct Hall as [Hin _]. apply existsb_eqb_In in Hin. congruence.
Qed.

(** X18. [onFileSelected] keeps the settings, empties the category map and
    replaces the rows and the errors. The new errors do not depend on the old
    ones, they are at most two, and there is none exactly when every expected
    header is among the trimmed names of the first line of the text. *)
Theorem upload_replaces_session (text : string) (st : State) :
  let out := onFileSelected text st in
  (apiKey out, source out, websiteName out, dateField out, onlyCompleted out, model out,
   typeFilter out)
  = (apiKey st, source st, websiteName st, dateField st, onlyCompleted st, model st,
     typeFilter st)
  /\ categoryMap out = ∅
  /\ rawRows out = data (fallbackParse text)
  /\ errors out = errors (onFileSelected text initial)
  /\ (length (errors out) <= 2)%nat
  /\ (errors out = [] <-> Forall (fun h => In h (checkedNames text)) expectedHeaders).
Proof.
  cbv zeta. split; [reflexivity|]. split; [reflexivity|]. split; [reflexivity|].
  split; [reflexivity|].
  unfold onFileSelected. cbn [errors]. fold (checkedNames text).
  set (missing := List.filter (fun h => negb (existsb (String.eqb h) (checkedNames text)))
                              expectedHeaders).
  split.
  { rewrite length_app.
    destruct (parse_errors (fallbackParse text)); destruct missing; cbn [length]; lia. }
  rewrite <- filter_missing_nil. fold missing. split.
  - intros Herr. apply app_eq_nil in Herr. destruct Herr as [_ Hw].
    destruct missing; [reflexivity|discriminate].
  - intros Hmissing. rewrite Hmissing. rewrite app_nil_r.
    assert (Hall : Forall (fun h => In h (checkedNames text)) expectedHeaders)
      by (apply filter_missing_nil; exact Hmissing).
    apply Forall_cons_1 in Hall. destruct Hall as [Htype _].
    assert (Hne : nonempty (hd EmptyString (split_lines text)) = true).
    { unfold checkedNames in Htype.
      destruct (hd EmptyString (split_lines text)); [|reflexivity].
      cbn in Htype. destruct Htype as [Heq|[]]. discriminate. }
    unfold fallbackParse. destruct (split_lines_hd text) as (ls & ->).
    cbn [List.filter]. rewrite Hne. reflexivity.
Qed.

(** X19. The header check reads the first line of the text even when it is
    empty, while the parser takes the header from the first line that is not:
    a text whose first line is empty always gets the warning that every
    expected column is missing, after the parsing issue if there is one, and
    its rows are still those that the parser reads. *)
Theorem blank_first_line_warns (text : string) (st : State) :
  hd EmptyString (split_lines text) = EmptyString ->
  errors (onFileSelected text st)
  = (if existsb nonempty (split_lines text) then []
     else ["Parsing issues: Empty file"]) ++ [blankHeaderWarning]
  /\ rawRows (onFileSelected text st) = data (fallbackParse text).
Proof.
  intros Hhd. split; [|reflexivity].
  unfold onFileSelected. cbn [errors]. rewrite Hhd. cbn [split List.map].
  f_equal. unfold fallbackParse.
  generalize (split_lines text) as lines. induction lines as [|l lines IH]; [reflexivity|].
  cbn [List.filter existsb]. destruct (nonempty l); [reflexivity|]. exact IH.
Qed.

Lemma blank_first_line_warns_witness :
  errors (onFileSelected (newline +:+ plainFile) initial) = [blankHeaderWarning]
  /\ length (rawRows (onFileSelected (newline +:+ plainFile) initial)) = 1%nat.
Proof.
  destruct (blank_first_line_warns (newline +:+ plainFile) initial) as [Herr Hrows].
  { vm_compute. reflexivity. }
  split.
  - rewrite Herr. vm_compute. reflexivity.
  - rewrite Hrows. vm_compute. reflexivity.
Defined.

(** ** Rows without columns *)

Lemma record_of_size (headers cols : list string) :
  (exists h, In h headers /\ h <> protoKey) -> size (record_of headers cols) <> 0%nat.
Proof.
  intros (h & Hin & Hne) Hsize. apply map_size_empty_inv in Hsize.
  assert (Hsome : is_Some (record_of headers cols !! h)).
  { rewrite record_of_lookup. apply String.eqb_neq in Hne. rewrite Hne.
    destruct (proj2 (column_index_from_In headers h 0) Hin) as [j Hj].
    unfold column_index. rewrite Hj. cbn. eauto. }
  rewrite Hsize, lookup_empty in Hsome. destruct Hsome as [v Hv]. discriminate.
Qed.

Lemma record_of_empty (headers cols : list string) :
  (forall h, In h headers -> h = protoKey) -> record_of headers cols = ∅.
Proof.
  intros Hall. apply map_eq. intros h. rewrite record_of_lookup, lookup_empty.
  destruct (String.eqb h protoKey) eqn:Hh; [reflexivity|]. apply String.eqb_neq in Hh.
  unfold column_index. destruct (column_index_from 0 headers h) as [j|] eqn:Hj; [|reflexivity].
  exfalso. apply Hh, Hall. apply (column_index_from_In headers h 0). eauto.
Qed.

Lemma fallback_data_records (text : string) :
  exists lines,
    data (fallbackParse text)
    = List.map (fun line => record_of (headerNames text) (split comma line)) lines.
Proof.
  unfold fallbackParse, headerNames.
  destruct (List.filter nonempty (split_lines text)) as [|header lines]; cbn [data].
  - exists []. reflexivity.
  - exists lines. reflexivity.
Qed.

(** X20. A row that the fallback parser reads has a column as soon as one
    header name is not [__proto__]: the test that drops rows without columns
    then drops none, and with the completed-only setting off every uploaded
    row is a filtered row.  When every header name is [__proto__], every row
    is read as a record without columns, and all of them are dropped. *)
Theorem parsed_rows_have_columns (text : string) (st : State) :
  ((exists h, In h (headerNames text) /\ h <> protoKey) ->
   Forall (fun r : RawRow => size r <> 0%nat) (data (fallbackParse text))
   /\ (onlyCompleted st = false ->
       filteredRows (onFileSelected text st) = data (fallbackParse text)))
  /\ ((forall h, In h (headerNames text) -> h = protoKey) ->
      Forall (fun r : RawRow => r = ∅) (data (fallbackParse text))
      /\ filteredRows (onFileSelected text st) = []).
Proof.
  destruct (fallback_data_records text) as (lines & Hdata). split.
  - intros Hsome.
    assert (Hall : Forall (fun r : RawRow => size r <> 0%nat) (data (fallbackParse text))).
    { rewrite Hdata. apply List.Forall_forall. intros r Hr. apply in_map_iff in Hr.
      destruct Hr as (line & <- & _). apply record_of_size. exact Hsome. }
    split; [exact Hall|].
    intros Hoff. unfold filteredRows.
    change (onlyCompleted (onFileSelected text st)) with (onlyCompleted st). rewrite Hoff.
    change (rawRows (onFileSelected text st)) with (data (fallbackParse text)).
    clear Hdata. induction Hall as [|r rows Hr Hrows IH]; [reflexivity|].
    cbn [List.filter]. apply Nat.eqb_neq in Hr. rewrite Hr. cbn [negb]. rewrite IH. reflexivity.
  - intros Hnone.
    assert (Hall : Forall (fun r : RawRow => r = ∅) (data (fallbackParse text))).
    { rewrite Hdata. apply List.Forall_forall. intros r Hr. apply in_map_iff in Hr.
      destruct Hr as (line & <- & _). apply record_of_empty. exact Hnone. }
    split; [exact Hall|].
    assert (Hkept : List.filter (fun r : RawRow => negb (Nat.eqb (size r) 0))
                                (data (fallbackParse text)) = []).
    { clear Hdata. induction Hall as [|r rows Hr Hrows IH]; [reflexivity|].
      cbn [List.filter]. rewrite Hr, map_size_empty. cbn. exact IH. }
    unfold filteredRows.
    change (rawRows (onFileSelected text st)) with (data (fallbackParse text)).
    rewrite Hkept. destruct (onlyCompleted (onFileSelected text st)); reflexivity.
Qed.

Lemma parsed_rows_have_columns_witness :
  length (filteredRows (onFileSelected (standardHeader +:+ newline +:+ readmeLine)
                                       (withCompletedOnly false initial))) = 1%nat
  /\ length (rawRows (onFileSelected (protoKey +:+ newline +:+ "x") initial)) = 1%nat
  /\ filteredRows (onFileSelected (protoKey +:+ newline +:+ "x") initial) = [].
Proof.
  split.
  - destruct (parsed_rows_have_columns (standardHeader +:+ newline +:+ readmeLine)
                (withCompletedOnly false initial)) as [Hsome _].
    destruct Hsome as [_ Hrows].
    { exists "Type". split; [vm_compute; tauto|discriminate]. }
    rewrite Hrows by reflexivity. vm_compute. reflexivity.
  - split; [vm_compute; reflexivity|].
    destruct (parsed_rows_have_columns (protoKey +:+ newline +:+ "x") initial) as [_ Hnone].
    apply Hnone. intros h Hh.
    assert (Hnames : headerNames (protoKey +:+ newline +:+ "x") = [protoKey])
      by (vm_compute; reflexivity).
    rewrite Hnames in Hh. destruct Hh as [<- | []]. reflexivity.
Defined.

Lemma upload_replaces_session_witness :
  errors (onFileSelected plainFile (setErrors (fun _ => ["old"]) initial)) = [].
Proof.
  destruct (upload_replaces_session plainFile (setErrors (fun _ => ["old"]) initial))
    as (_ & _ & _ & _ & _ & Hiff).
  apply Hiff. apply filter_missing_nil. vm_compute. reflexivity.
Defined.

(** ** The names that are classified and the names that are looked up *)

Lemma fallback_rows_trimmed (text : string) :
  Forall (fun r : RawRow => forall h v, r !! h = Some v -> trim v = v)
         (data (fallbackParse text)).
Proof.
  unfold fallbackParse.
  destruct (List.filter nonempty (split_lines text)) as [|header lines]; cbn [data];
    [constructor|].
  apply List.Forall_forall. intros r Hr. apply in_map_iff in Hr.
  destruct Hr as (line & <- & _). intros h v. rewrite record_of_lookup.
  destruct (String.eqb h protoKey); [discriminate|].
  destruct (column_index (List.map trim (split comma header)) h) as [j|];
    cbn [fmap option_fmap option_map]; [|discriminate].
  intros [= <-]. apply trim_idem.
Qed.

Lemma filteredRows_raw (st : State) (r : RawRow) :
  In r (filteredRows st) -> In r (rawRows st).
Proof.
  unfold filteredRows. destruct (onlyCompleted st); intros Hr.
  - apply filter_In in Hr. destruct Hr as [Hr _]. apply filter_In in Hr. exact (proj1 Hr).
  - apply filter_In in Hr. exact (proj1 Hr).
Qed.

Section Names.
Context {js : Builtins}.

(** X21. The classifier is asked about the trimmed description of a row, and
    the category map is read at the description as it is. For the rows of a
    file read by the fallback parser the two are the same text, so every name
    that is looked up, when it is not empty, is one of the names sent. *)
Theorem looked_up_names_are_sent :
  (forall st r,
      In r (filteredRows st) ->
      nonempty (trim (Name (transformRow st r))) = true ->
      In (trim (Name (transformRow st r))) (uniqueNames st))
  /\ (forall text st r,
         In r (filteredRows (onFileSelected text st)) ->
         trim (Name (transformRow (onFileSelected text st) r))
         = Name (transformRow (onFileSelected text st) r)).
Proof.
  split.
  - intros st r Hr Hne. cbn [transformRow Name] in *.
    apply uniqueNames_In. split; [exact Hne|]. exists r. split; [exact Hr|reflexivity].
  - intros text st r Hr. cbn [transformRow Name].
    apply filteredRows_raw in Hr.
    change (rawRows (onFileSelected text st)) with (data (fallbackParse text)) in Hr.
    pose proof (fallback_rows_trimmed text) as Hall.
    rewrite List.Forall_forall in Hall. specialize (Hall r Hr "Description").
    unfold column_or. destruct (r !! "Description") as [v|]; [|reflexivity].
    unfold or_else. destruct (nonempty v); [|reflexivity]. apply Hall. reflexivity.
Qed.

End Names.

Lemma looked_up_names_are_sent_witness :
  let r : RawRow := {[ "Description" := " CONAD " ]} in
  let st := withRows [r] (withCompletedOnly false initial) in
  Name (transformRow (js := host []) st r) = " CONAD "
  /\ In (trim (Name (transformRow (js := host []) st r))) (uniqueNames st).
Proof.
  cbv zeta. split; [vm_compute; reflexivity|].
  destruct (looked_up_names_are_sent (js := host [])) as [Hsent _].
  apply Hsent.
  - assert (Hrows : filteredRows
                      (withRows [ {[ "Description" := " CONAD " ]} ]
                                (withCompletedOnly false initial))
                    = [ {[ "Description" := " CONAD " ]} ]) by (vm_compute; reflexivity).
    rewrite Hrows. left. reflexivity.
  - vm_compute. reflexivity.
Defined.
